(** * Doctor-7860: the intake form controller, the prompt builder and the
      response handling, embedded in Rocq.

    Sources embedded here:
    - [src/types.ts]                   ([PatientInfo], [TreatmentType],
                                        [ReligiousTreatments], [FilePart]);
    - [src/services/geminiService.ts]  ([generatePrescription]);
    - [src/unnamed/part_000]           (the [App] component: [fileToPart],
                                        [handleFiles], [removeFile],
                                        [handleInputChange],
                                        [handleTreatmentToggle], [resetForm],
                                        [handleEdit], [handleSubmit]).

    JavaScript strings are sequences of UTF-16 code units and are modelled
    as [list N].  A JavaScript [Set<string>] keeps insertion order and is
    modelled as a duplicate-free list.  The component state (one [useState]
    cell per field) is a record that every handler maps to the next state;
    [handleSubmit] also returns the log of what it asked of the outside
    world (file reads, the service request). *)

From Stdlib Require Import String Ascii NArith ZArith List Lia.
From stdpp Require Import base option list gmap.

Local Open Scope N_scope.

(** ** JavaScript strings *)

Abbreviation jsstring := (list N).

Module JsString.

(** Decoding of the UTF-8 bytes of a source-text literal into code points;
    only used to write the literals of the TypeScript source, which are
    well-formed UTF-8. *)
Fixpoint utf8_decode (bs : list N) : list N :=
  match bs with
  | [] => []
  | b :: r =>
    if b <? 128 then b :: utf8_decode r
    else if b <? 224 then
      match r with
      | c1 :: r1 =>
        N.lor (N.shiftl (N.land b 31) 6) (N.land c1 63) :: utf8_decode r1
      | _ => []
      end
    else if b <? 240 then
      match r with
      | c1 :: c2 :: r2 =>
        N.lor (N.shiftl (N.land b 15) 12)
              (N.lor (N.shiftl (N.land c1 63) 6) (N.land c2 63))
          :: utf8_decode r2
      | _ => []
      end
    else
      match r with
      | c1 :: c2 :: c3 :: r3 =>
        N.lor (N.shiftl (N.land b 7) 18)
              (N.lor (N.shiftl (N.land c1 63) 12)
                     (N.lor (N.shiftl (N.land c2 63) 6) (N.land c3 63)))
          :: utf8_decode r3
      | _ => []
      end
  end.

(** A code point as one or two UTF-16 code units. *)
Definition utf16_units (cp : N) : list N :=
  if cp <? 65536 then [cp]
  else [55296 + N.shiftr (cp - 65536) 10; 56320 + N.land (cp - 65536) 1023].

Definition of_bytes (bs : list N) : jsstring :=
  flat_map utf16_units (utf8_decode bs).

(** The JavaScript string written by a literal of the source. *)
Definition js (s : string) : jsstring :=
  of_bytes (map N_of_ascii (list_ascii_of_string s)).

(** The characters that cannot be written inside a Rocq literal. *)
Definition dquote : jsstring := [34].
Definition newline : jsstring := [10].

(** [Array.prototype.join] on strings. *)
Fixpoint join (sep : jsstring) (parts : list jsstring) : jsstring :=
  match parts with
  | [] => []
  | [p] => p
  | p :: rest => p ++ sep ++ join sep rest
  end.

(** White space and line terminators of ECMAScript, the code units
    [String.prototype.trim] strips. *)
Definition is_js_space (c : N) : bool :=
  (c =? 9) || (c =? 10) || (c =? 11) || (c =? 12) || (c =? 13) || (c =? 32)
  || (c =? 160) || (c =? 5760)
  || ((8192 <=? c) && (c <=? 8202))
  || (c =? 8232) || (c =? 8233) || (c =? 8239) || (c =? 8287)
  || (c =? 12288) || (c =? 65279).

Fixpoint trim_start (s : jsstring) : jsstring :=
  match s with
  | c :: r => if is_js_space c then trim_start r else s
  | [] => []
  end.

Definition trim (s : jsstring) : jsstring :=
  rev (trim_start (rev (trim_start s))).

(** Truthiness of a string: only the empty string is falsy. *)
Definition truthy (s : jsstring) : bool :=
  match s with [] => false | _ => true end.

(** [needle] occurs in [hay] as a contiguous run of code units. *)
Definition occurs_in (needle hay : jsstring) : Prop :=
  ∃ before after, hay = before ++ needle ++ after.

End JsString.

Import JsString.


(** ** [src/types.ts] *)

Record PatientInfo := {
  name : jsstring;
  age : jsstring;
  district : jsstring;
  cell : jsstring;
  religion : jsstring;
  language : jsstring
}.

Inductive TreatmentType := Hikmat | Homeopathy | SpecialistDoctors.

(** The string value of each member of the [TreatmentType] enum. *)
Definition TreatmentType_value (t : TreatmentType) : jsstring :=
  match t with
  | Hikmat => js "Hikmat (Traditional Herbal)"
  | Homeopathy => js "Homeopathy"
  | SpecialistDoctors => js "Allopathy (Specialist Doctors)"
  end.

(** The object literal [ReligiousTreatments], a map from religion to label.
    A lookup that finds nothing is [undefined] in the source and [None]
    here.  The keys looked up are values of the religion select; none of
    them names a property inherited from [Object.prototype]. *)
Definition ReligiousTreatments : gmap jsstring jsstring :=
  list_to_map [
    (js "Islam", js "Quran & Asma-ul-Husna");
    (js "Christianity", js "Biblical Healing & Prayer");
    (js "Hinduism", js "Ayurveda & Mantras");
    (js "Buddhism", js "Meditation & Chanting");
    (js "Sikhism", js "Gurbani Recitation & Seva");
    (js "Judaism", js "Torah Study & Prayer");
    (js "Baháʼí Faith", js "Writings of Baháʼu'lláh & Prayer");
    (js "Chinese Folk Religion", js "Ancestral Veneration & Herbal Remedies");
    (js "Spiritism", js "Spiritual Counsel & Healing");
    (js "Ethnic/Indigenous Religions", js "Traditional Rituals & Natural Healing")
  ].

(** [FilePart]: [data] is what [split(',')[1]] returned, which is
    [undefined] ([None]) for a data URL without a comma. *)
Record FilePart := {
  mimeType : jsstring;
  data : option jsstring
}.

(** The fields of a browser [File] that the component reads. *)
Record File := {
  file_name : jsstring;
  file_type : jsstring;
  file_size : N
}.

#[global] Instance PatientInfo_eq_dec : EqDecision PatientInfo.
Proof. solve_decision. Defined.
#[global] Instance File_eq_dec : EqDecision File.
Proof. solve_decision. Defined.
#[global] Instance FilePart_eq_dec : EqDecision FilePart.
Proof. solve_decision. Defined.

(** ** JavaScript [Set<string>]: insertion-ordered, duplicate-free *)

Module JsSet.

Definition has (x : jsstring) (s : list jsstring) : bool :=
  bool_decide (x ∈ s).

Definition add (x : jsstring) (s : list jsstring) : list jsstring :=
  if has x s then s else s ++ [x].

Definition delete (x : jsstring) (s : list jsstring) : list jsstring :=
  filter (λ y, y ≠ x) s.

Definition size (s : list jsstring) : nat := length s.

End JsSet.

(** ** JavaScript values and [JSON.parse]

    [generatePrescription] returns [JSON.parse(response.text)].  The values
    [JSON.parse] can produce are modelled by [JsValue]; a number keeps the
    exact decimal value [(-1)^negative * digits * 10^exp10] of its literal.
    An object is its list of own properties, each key once.  [JSON.parse]
    is a built-in of the platform; the module [JSON] follows its grammar
    (ECMA-404, as ECMAScript's [JSON.parse] reads it, without reviver). *)

#[warnings="-register-all"]
Inductive JsValue :=
| JNull
| JBool (b : bool)
| JNumber (negative : bool) (digits : N) (exp10 : Z)
| JString (s : jsstring)
| JArray (items : list JsValue)
| JObject (props : list (jsstring * JsValue)).

Module JSON.

Definition is_ws (c : N) : bool :=
  (c =? 32) || (c =? 9) || (c =? 10) || (c =? 13).

Fixpoint skip_ws (s : jsstring) : jsstring :=
  match s with
  | c :: r => if is_ws c then skip_ws r else s
  | [] => []
  end.

Definition is_digit (c : N) : bool := (48 <=? c) && (c <=? 57).

Definition hex_value (c : N) : option N :=
  if is_digit c then Some (c - 48)
  else if (97 <=? c) && (c <=? 102) then Some (c - 87)
  else if (65 <=? c) && (c <=? 70) then Some (c - 55)
  else None.

Definition hex4 (h1 h2 h3 h4 : N) : option N :=
  match hex_value h1, hex_value h2, hex_value h3, hex_value h4 with
  | Some a, Some b, Some c, Some d => Some (((a * 16 + b) * 16 + c) * 16 + d)
  | _, _, _, _ => None
  end.

(** The character a one-letter escape stands for. *)
Definition escape_char (e : N) : option N :=
  if e =? 34 then Some 34            (* quotation mark *)
  else if e =? 92 then Some 92       (* reverse solidus *)
  else if e =? 47 then Some 47       (* solidus *)
  else if e =? 98 then Some 8        (* b: backspace *)
  else if e =? 102 then Some 12      (* f: form feed *)
  else if e =? 110 then Some 10      (* n: line feed *)
  else if e =? 114 then Some 13      (* r: carriage return *)
  else if e =? 116 then Some 9       (* t: tab *)
  else None.

(** The rest of a string literal, after its opening quote: the decoded
    string and the input after the closing quote. *)
Fixpoint parse_string_body (s : jsstring) : option (jsstring * jsstring) :=
  match s with
  | [] => None
  | c :: r =>
    if c =? 34 then Some ([], r)
    else if c =? 92 then
      match r with
      | [] => None
      | e :: r1 =>
        if e =? 117 then
          match r1 with
          | h1 :: h2 :: h3 :: h4 :: r2 =>
            match hex4 h1 h2 h3 h4, parse_string_body r2 with
            | Some u, Some (t, rest) => Some (u :: t, rest)
            | _, _ => None
            end
          | _ => None
          end
        else
          match escape_char e, parse_string_body r1 with
          | Some u, Some (t, rest) => Some (u :: t, rest)
          | _, _ => None
          end
      end
    else if c <? 32 then None
    else
      match parse_string_body r with
      | Some (t, rest) => Some (c :: t, rest)
      | None => None
      end
  end.

(** The longest run of decimal digits at the head of the input, with its
    value and its length. *)
Fixpoint span_digits (s : jsstring) (acc : N) (len : nat)
  : N * nat * jsstring :=
  match s with
  | c :: r =>
    if is_digit c then span_digits r (acc * 10 + (c - 48)) (S len)
    else (acc, len, s)
  | [] => (acc, len, [])
  end.

Definition parse_exponent (s : jsstring) : option (Z * jsstring) :=
  match s with
  | c :: r =>
    if (c =? 101) || (c =? 69) then
      let '(sign, r1) :=
        match r with
        | d :: r' =>
          if d =? 43 then (1%Z, r')
          else if d =? 45 then ((-1)%Z, r')
          else (1%Z, r)
        | [] => (1%Z, r)
        end in
      match span_digits r1 0 0 with
      | (_, O, _) => None
      | (e, S _, rest) => Some ((sign * Z.of_N e)%Z, rest)
      end
    else Some (0%Z, s)
  | [] => Some (0%Z, [])
  end.

Definition parse_fraction (s : jsstring) (int : N)
  : option (N * nat * jsstring) :=
  match s with
  | c :: r =>
    if c =? 46 then
      match span_digits r int 0 with
      | (_, O, _) => None
      | (m, S k, rest) => Some (m, S k, rest)
      end
    else Some (int, O, s)
  | [] => Some (int, O, [])
  end.

Definition parse_number (s : jsstring) : option (JsValue * jsstring) :=
  let '(neg, s1) :=
    match s with
    | c :: r => if c =? 45 then (true, r) else (false, s)
    | [] => (false, s)
    end in
  let int_part :=
    match s1 with
    | c :: r =>
      if c =? 48 then Some (0, r)
      else if is_digit c then
        let '(v, _, rest) := span_digits s1 0 0 in Some (v, rest)
      else None
    | [] => None
    end in
  match int_part with
  | None => None
  | Some (int, s2) =>
    match parse_fraction s2 int with
    | None => None
    | Some (mant, frac_len, s3) =>
      match parse_exponent s3 with
      | None => None
      | Some (e, s4) =>
        Some (JNumber neg mant (e - Z.of_nat frac_len), s4)
      end
    end
  end.

(** [s] starts with the code units of [lit]: the remaining input. *)
Fixpoint strip_prefix (lit s : jsstring) : option jsstring :=
  match lit, s with
  | [], _ => Some s
  | a :: lit', b :: s' => if a =? b then strip_prefix lit' s' else None
  | _ :: _, [] => None
  end.

(** Defining a property of the object under construction: a repeated key
    keeps its place and takes the later value. *)
Fixpoint define_property (k : jsstring) (v : JsValue)
    (props : list (jsstring * JsValue)) : list (jsstring * JsValue) :=
  match props with
  | [] => [(k, v)]
  | (k', v') :: rest =>
    if decide (k' = k) then (k, v) :: rest
    else (k', v') :: define_property k v rest
  end.

Fixpoint parse_value (fuel : nat) (s : jsstring)
  : option (JsValue * jsstring) :=
  match fuel with
  | O => None
  | S fuel' =>
    match skip_ws s with
    | [] => None
    | c :: r =>
      if c =? 123 then
        match skip_ws r with
        | c' :: r' =>
          if c' =? 125 then Some (JObject [], r')
          else parse_members fuel' r []
        | [] => None
        end
      else if c =? 91 then
        match skip_ws r with
        | c' :: r' =>
          if c' =? 93 then Some (JArray [], r')
          else parse_elements fuel' r []
        | [] => None
        end
      else if c =? 34 then
        match parse_string_body r with
        | Some (str, rest) => Some (JString str, rest)
        | None => None
        end
      else if c =? 116 then
        match strip_prefix (js "true") (c :: r) with
        | Some rest => Some (JBool true, rest)
        | None => None
        end
      else if c =? 102 then
        match strip_prefix (js "false") (c :: r) with
        | Some rest => Some (JBool false, rest)
        | None => None
        end
      else if c =? 110 then
        match strip_prefix (js "null") (c :: r) with
        | Some rest => Some (JNull, rest)
        | None => None
        end
      else parse_number (c :: r)
    end
  end
with parse_elements (fuel : nat) (s : jsstring) (acc : list JsValue)
  : option (JsValue * jsstring) :=
  match fuel with
  | O => None
  | S fuel' =>
    match parse_value fuel' s with
    | None => None
    | Some (v, r) =>
      match skip_ws r with
      | c :: r' =>
        if c =? 44 then parse_elements fuel' r' (acc ++ [v])
        else if c =? 93 then Some (JArray (acc ++ [v]), r')
        else None
      | [] => None
      end
    end
  end
with parse_members (fuel : nat) (s : jsstring)
    (acc : list (jsstring * JsValue)) : option (JsValue * jsstring) :=
  match fuel with
  | O => None
  | S fuel' =>
    match skip_ws s with
    | c :: r =>
      if c =? 34 then
        match parse_string_body r with
        | None => None
        | Some (k, r1) =>
          match skip_ws r1 with
          | c1 :: r2 =>
            if c1 =? 58 then
              match parse_value fuel' r2 with
              | None => None
              | Some (v, r3) =>
                match skip_ws r3 with
                | c3 :: r4 =>
                  if c3 =? 44 then
                    parse_members fuel' r4 (define_property k v acc)
                  else if c3 =? 125 then
                    Some (JObject (define_property k v acc), r4)
                  else None
                | [] => None
                end
              end
            else None
          | [] => None
          end
        end
      else None
    | [] => None
    end
  end.

(** [JSON.parse(text)]: [None] when it throws a [SyntaxError].  Every
    step of the descent that does not read a character is followed by one
    that does, so twice the length of the text is fuel enough
    ([JSON_parse_fuel_enough] below). *)
Definition parse (text : jsstring) : option JsValue :=
  match parse_value (2 * length text + 2) text with
  | Some (v, rest) =>
    match skip_ws rest with
    | [] => Some v
    | _ :: _ => None
    end
  | None => None
  end.

(** A JSON string literal that denotes [s]: the quotation mark and the
    reverse solidus are escaped with a reverse solidus, control characters
    are written as [u00XX] escapes, every other code unit stands for
    itself. *)
Definition hex_digit (n : N) : N := if n <? 10 then 48 + n else 87 + n.

Definition escape (c : N) : jsstring :=
  if c =? 34 then [92; 34]
  else if c =? 92 then [92; 92]
  else if c <? 32 then [92; 117; 48; 48; hex_digit (c / 16); hex_digit (c mod 16)]
  else [c].

Definition quote (s : jsstring) : jsstring :=
  34 :: flat_map escape s ++ [34].

End JSON.

(** [ToBoolean]: what [!prescription] and [error && ...] test.  The double
    nearest to a positive decimal is zero exactly when the decimal is at
    most [2^-1075], half of the least subnormal. *)
Definition number_is_zero (digits : N) (exp10 : Z) : bool :=
  (digits =? 0)
  || ((exp10 <? 0)%Z && (digits * 2 ^ 1075 <=? 10 ^ Z.to_N (- exp10))).

Definition ToBoolean (v : JsValue) : bool :=
  match v with
  | JNull => false
  | JBool b => b
  | JNumber _ digits exp10 => negb (number_is_zero digits exp10)
  | JString s => truthy s
  | JArray _ | JObject _ => true
  end.

(** Reading a property that the standard prototypes do not define, such as
    [illnessTitle]: the own property of an object, [undefined] ([None])
    elsewhere. *)
Fixpoint own_property (k : jsstring) (props : list (jsstring * JsValue))
  : option JsValue :=
  match props with
  | [] => None
  | (k', v) :: rest => if decide (k' = k) then Some v else own_property k rest
  end.

Definition get_property (v : JsValue) (k : jsstring) : option JsValue :=
  match v with
  | JObject props => own_property k props
  | _ => None
  end.

(** ** Thrown values, the outside world, and asynchronous code *)

(** What a [catch] can receive in this program: an [Error] object, or the
    event that [FileReader.onerror] hands to [reject] in [fileToPart]; that
    event is a [ProgressEvent], which has no [message] property. *)
Inductive JsThrown :=
| ErrorObject (message : jsstring)
| FileReaderErrorEvent.

(** [err.message]; [None] is [undefined]. *)
Definition message_of (err : JsThrown) : option jsstring :=
  match err with
  | ErrorObject m => Some m
  | FileReaderErrorEvent => None
  end.

(** The argument of [ai.models.generateContent]. *)
Record Request := {
  model : jsstring;
  text : jsstring;
  files : list FilePart;
  responseMimeType : jsstring;
  required : list jsstring
}.

(** What the service call does: it throws or rejects with some value, or
    it resolves to a response whose [text] is a string or [undefined]. *)
Inductive ServiceOutcome :=
| ServiceFails (err : JsThrown)
| ServiceResponds (response_text : option jsstring).

(** What the program asks of the outside world, in order. *)
Inductive Effect :=
| ReadAsDataURL (file : File)
| GenerateContent (request : Request)
| ConsoleError.

Inductive Completion (A : Type) :=
| Returns (a : A)
| Throws (err : JsThrown).
Arguments Returns {A} a.
Arguments Throws {A} err.

(** An awaited computation: the effects it performed and how it ended. *)
Definition Async (A : Type) : Type := list Effect * Completion A.

#[global] Instance Async_ret : MRet Async := λ A a, ([], Returns a).

#[global] Instance Async_bind : MBind Async := λ A B k m,
  match m with
  | (log, Returns a) => let '(log', r) := k a in (log ++ log', r)
  | (log, Throws err) => (log, Throws err)
  end.

Definition throw {A} (err : JsThrown) : Async A := ([], Throws err).

Definition perform (e : Effect) : Async () := ([e], Returns ()).

(** [try { body } catch (error) { handler error }]. *)
Definition try_catch {A} (body : Async A) (handler : JsThrown → Async A)
  : Async A :=
  match body with
  | (log, Returns a) => (log, Returns a)
  | (log, Throws err) => let '(log', r) := handler err in (log ++ log', r)
  end.

(** [Promise.all] over promises that were all started: every effect
    happens; the result rejects as soon as one of them does.  Which
    rejection comes first is a matter of timing; the first in list order
    stands for it. *)
Fixpoint Promise_all {A} (ps : list (Async A)) : Async (list A) :=
  match ps with
  | [] => ([], Returns [])
  | (log, c) :: rest =>
    let '(log', cs) := Promise_all rest in
    (log ++ log',
     match c, cs with
     | Throws err, _ => Throws err
     | Returns _, Throws err => Throws err
     | Returns a, Returns l => Returns (a :: l)
     end)
  end.

(** ** [src/services/geminiService.ts] *)

Module geminiService.

(** [ReligiousTreatments.Islam], [ReligiousTreatments["Baháʼí Faith"]],
    ...: the label under a key of the table. *)
Definition RT (key : string) : jsstring :=
  default (js "undefined") (ReligiousTreatments !! js key).

Definition religiousTreatmentPrompts : gmap jsstring jsstring :=
  list_to_map [
  (RT "Islam",
   js "- For " ++ dquote ++ RT "Islam" ++ dquote ++ js ", provide relevant Quranic verses or duas, and recommend 'tasbeeh' (recitation) of Asma-ul-Husna relevant to healing. Use bullet points. If the target language is Urdu, this MUST be in Urdu script.");
  (RT "Christianity",
   js "- For " ++ dquote ++ RT "Christianity" ++ dquote ++ js ", provide relevant Bible verses and suggest prayers. Use bullet points.");
  (RT "Hinduism",
   js "- For " ++ dquote ++ RT "Hinduism" ++ dquote ++ js ", provide relevant Ayurvedic remedies and suggest healing mantras. Use bullet points.");
  (RT "Buddhism",
   js "- For " ++ dquote ++ RT "Buddhism" ++ dquote ++ js ", suggest meditation techniques and healing chants or sutras. Use bullet points.");
  (RT "Sikhism",
   js "- For " ++ dquote ++ RT "Sikhism" ++ dquote ++ js ", recommend reciting Shabads from the Gurbani and suggest 'Seva' (selfless service). Use bullet points.");
  (RT "Judaism",
   js "- For " ++ dquote ++ RT "Judaism" ++ dquote ++ js ", provide relevant passages from the Torah or Psalms and suggest prayers. Use bullet points.");
  (RT "Baháʼí Faith",
   js "- For " ++ dquote ++ RT "Baháʼí Faith" ++ dquote ++ js ", provide excerpts from the Writings of Baháʼu'lláh and suggest prayers for health. Use bullet points.");
  (RT "Chinese Folk Religion",
   js "- For " ++ dquote ++ RT "Chinese Folk Religion" ++ dquote ++ js ", suggest practices like ancestral offerings and common herbal remedies. Use bullet points.");
  (RT "Spiritism",
   js "- For " ++ dquote ++ RT "Spiritism" ++ dquote ++ js ", provide spiritual counsel and suggest practices like positive affirmations. Use bullet points.");
  (RT "Ethnic/Indigenous Religions",
   js "- For " ++ dquote ++ RT "Ethnic/Indigenous Religions" ++ dquote ++ js ", suggest connecting with nature and general traditional rituals. Use bullet points.")
  ].

(** [Boolean] as the filter callback: [undefined] and the empty string are
    dropped. *)
Definition Boolean (v : option jsstring) : bool :=
  match v with
  | Some str => truthy str
  | None => false
  end.

(** [selectedTreatments.map(t => religiousTreatmentPrompts[t])
      .filter(Boolean)].  The table is looked up by its own keys, which is
    what the source does for every string that does not name a property
    all objects inherit ([constructor], [toString] and the like); the
    labels the form offers are all such strings. *)
Definition religiousRules (selectedTreatments : list jsstring)
  : list jsstring :=
  omap (λ v, if Boolean v then v else None)
       ((λ treatment, religiousTreatmentPrompts !! treatment)
          <$> selectedTreatments).

(** The template literal [prompt], one list element per source line. *)
Definition prompt (patientInfo : PatientInfo) (illnessDescription : jsstring)
    (selectedTreatments : list jsstring) (hasFiles : bool) : jsstring :=
  let language := language patientInfo in
  join newline [
    [];
    js "    You are an expert AI medical advisor. Your task is to provide concise, safe, and professional recommendations.";
    [];
    js "    **PRIMARY LANGUAGE RULE:**";
    js "    - You MUST generate the ENTIRE response in **" ++ language ++ js "**. This includes all headings, titles, medical terms, treatment plans, analysis, and advice. Translate everything accurately and naturally.";
    [];
    js "    **FORMATTING RULES:**";
    js "    - For **Allopathy (Specialist Doctors)**, act as a board-certified specialist for the specific condition. Prescribe a comprehensive, high-quality, and modern treatment plan. Include primary medications, any necessary supportive therapies (e.g., vitamins, antacids), and suggest relevant diagnostic tests if needed. Use the format: `Medicine Name, Dosage (e.g., 500mg, 1+1+1), Duration (e.g., 5 days)`. List each item on a new bullet point (*). Ensure the prescription is evidence-based and professional.";
    js "    - For **Homeopathy**, use this format: `Medicine Name Potency, Dosage (e.g., 5+5+5 drops), Duration (e.g., 7 days)`. New bullet point (*) per medicine. No paragraphs.";
    js "    - For **Hikmat**, use simple bullet points with brief descriptions.";
    js "    " ++ join (newline ++ js "            ") (religiousRules selectedTreatments);
    [];
    js "    **Patient Information:**";
    js "    - Name: " ++ name patientInfo;
    js "    - Age: " ++ age patientInfo;
    js "    - District: " ++ district patientInfo;
    js "    - Religion: " ++ religion patientInfo;
    js "    - Preferred Language: " ++ language;
    js "    " ++ (if truthy (cell patientInfo)
                  then js "- Cell: " ++ cell patientInfo else []);
    [];
    js "    " ++
      (if hasFiles then
         join newline [
           js "**User Comments on Reports:**";
           js "      " ++ dquote ++ illnessDescription ++ dquote ]
       else
         join newline [
           js "**Illness Description:**";
           js "      " ++ dquote ++ illnessDescription ++ dquote ]);
    js "    ";
    js "    " ++
      (if hasFiles then
         join newline [
           [];
           js "      **Task:**";
           js "      Based on the provided information and reports, perform these tasks in " ++ language ++ js ":";
           js "      1.  **Create Illness Title:** Create a short title for the issue (max 5 words).";
           js "      2.  **Analyze Reports:** Create a level 2 heading " ++ dquote ++ js "Report Analysis Summary" ++ dquote ++ js " (translated to " ++ language ++ js "). List **ONLY abnormal findings** in bullet points. Do not mention normal results.";
           js "      3.  **Provide Treatment Opinion:** Provide plans for the selected methodologies: **" ++ join (js ", ") selectedTreatments ++ js "**. Base these on report findings and user comments, following all rules.";
           js "      4.  **Provide General Advice:** Create a final section with a level 2 heading " ++ dquote ++ js "General Advice" ++ dquote ++ js " (translated to " ++ language ++ js "). Provide a bulleted list of health advice and precautions.";
           [];
           js "      **Response Structure:**";
           js "      - The 'prescriptionContent' value MUST start with the 'Report Analysis Summary' section.";
           js "      - The 'advice' value MUST contain the 'General Advice' section.";
           js "      " ]
       else
         join newline [
           [];
           js "      **Task:**";
           js "      Based on the provided information, perform these tasks in " ++ language ++ js ":";
           js "      1.  **Create Illness Title:** Create a short title for the illness (max 4 words).";
           js "      2.  **Provide Treatment Plans:** Provide plans for the selected methodologies: **" ++ join (js ", ") selectedTreatments ++ js "**. Follow all rules.";
           js "      3.  **Provide General Advice:** Create a final section with a level 2 heading " ++ dquote ++ js "General Advice" ++ dquote ++ js " (translated to " ++ language ++ js "). Provide a bulleted list of health advice and precautions.";
           [];
           js "      **Response Structure:**";
           js "      - The 'prescriptionContent' value MUST contain a level 2 heading for each treatment type (e.g., " ++ dquote ++ js "Homeopathy Prescription" ++ dquote ++ js "), translated to " ++ language ++ js ".";
           js "      - The 'advice' value MUST contain the 'General Advice' section.";
           js "      " ]);
    js "    "
  ].

Definition failure_message : jsstring :=
  js "Failed to get a response from the AI. Please try again.".

(** The request built inside the [try]: the prompt as first part, then the
    files, and the response schema's list of required fields. *)
Definition request (patientInfo : PatientInfo)
    (illnessDescription : jsstring) (selectedTreatments : list jsstring)
    (files : list FilePart) : Request :=
  let hasFiles := bool_decide (0 < length files)%nat in
  {| model := js "gemini-2.5-flash";
     text := prompt patientInfo illnessDescription selectedTreatments hasFiles;
     files := files;
     responseMimeType := js "application/json";
     required := [js "illnessTitle"; js "prescriptionContent"; js "advice"] |}.

(** The reply the response schema asks for: an object with exactly the
    three required fields, each a string; as a text and as a value. *)
Definition well_formed_reply (illnessTitle prescriptionContent advice : jsstring)
  : jsstring :=
  js "{" ++ JSON.quote (js "illnessTitle") ++ js ":"
    ++ JSON.quote illnessTitle ++ js ","
    ++ JSON.quote (js "prescriptionContent") ++ js ":"
    ++ JSON.quote prescriptionContent ++ js ","
    ++ JSON.quote (js "advice") ++ js ":"
    ++ JSON.quote advice ++ js "}".

Definition reply_object (illnessTitle prescriptionContent advice : jsstring)
  : JsValue :=
  JObject [(js "illnessTitle", JString illnessTitle);
           (js "prescriptionContent", JString prescriptionContent);
           (js "advice", JString advice)].

Section WithService.

(** The external service, [ai.models.generateContent]. *)
Variable generateContent : Request → ServiceOutcome.

(** [JSON.parse(response.text)]; an [undefined] text is converted to the
    string [undefined], which is not JSON.  The message of the
    [SyntaxError] is up to the engine; nothing reads it. *)
Definition syntax_error : JsThrown := ErrorObject (js "SyntaxError").

Definition parse_response (response_text : option jsstring)
  : Async JsValue :=
  match JSON.parse (default (js "undefined") response_text) with
  | Some v => mret v
  | None => throw syntax_error
  end.

Definition generatePrescription (patientInfo : PatientInfo)
    (illnessDescription : jsstring) (selectedTreatments : list jsstring)
    (files : list FilePart) : Async JsValue :=
  let req := request patientInfo illnessDescription selectedTreatments files in
  try_catch
    (perform (GenerateContent req) ;;
     match generateContent req with
     | ServiceFails err => throw err
     | ServiceResponds response_text => parse_response response_text
     end)
    (λ error,
       perform ConsoleError ;;
       throw (ErrorObject failure_message)).

End WithService.

End geminiService.

(** ** [src/unnamed/part_000]: the [App] component *)

Module App.

Inductive Tab := TabText | TabUpload.

(** The [error] cell: [null], a string, or the [undefined] that
    [setError(err.message)] stores when the caught value has no
    [message]. *)
Inductive ErrorValue :=
| err_null
| err_undefined
| err_string (msg : jsstring).

(** One field per [useState] cell.  [prescription] is [JNull] for
    [null]. *)
Record AppState := {
  patientInfo : PatientInfo;
  symptomDescription : jsstring;
  reportComments : jsstring;
  selectedTreatments : list jsstring;
  isLoading : bool;
  error : ErrorValue;
  prescription : JsValue;
  activeTab : Tab;
  uploadedFiles : list File;
  isDragging : bool
}.

Definition setPatientInfo (v : PatientInfo) (s : AppState) : AppState :=
  {| patientInfo := v; symptomDescription := symptomDescription s;
     reportComments := reportComments s;
     selectedTreatments := selectedTreatments s; isLoading := isLoading s;
     error := error s; prescription := prescription s;
     activeTab := activeTab s; uploadedFiles := uploadedFiles s;
     isDragging := isDragging s |}.

Definition setSymptomDescription (v : jsstring) (s : AppState) : AppState :=
  {| patientInfo := patientInfo s; symptomDescription := v;
     reportComments := reportComments s;
     selectedTreatments := selectedTreatments s; isLoading := isLoading s;
     error := error s; prescription := prescription s;
     activeTab := activeTab s; uploadedFiles := uploadedFiles s;
     isDragging := isDragging s |}.

Definition setReportComments (v : jsstring) (s : AppState) : AppState :=
  {| patientInfo := patientInfo s;
     symptomDescription := symptomDescription s; reportComments := v;
     selectedTreatments := selectedTreatments s; isLoading := isLoading s;
     error := error s; prescription := prescription s;
     activeTab := activeTab s; uploadedFiles := uploadedFiles s;
     isDragging := isDragging s |}.

Definition setSelectedTreatments (v : list jsstring) (s : AppState)
  : AppState :=
  {| patientInfo := patientInfo s;
     symptomDescription := symptomDescription s;
     reportComments := reportComments s; selectedTreatments := v;
     isLoading := isLoading s; error := error s;
     prescription := prescription s; activeTab := activeTab s;
     uploadedFiles := uploadedFiles s; isDragging := isDragging s |}.

Definition setIsLoading (v : bool) (s : AppState) : AppState :=
  {| patientInfo := patientInfo s;
     symptomDescription := symptomDescription s;
     reportComments := reportComments s;
     selectedTreatments := selectedTreatments s; isLoading := v;
     error := error s; prescription := prescription s;
     activeTab := activeTab s; uploadedFiles := uploadedFiles s;
     isDragging := isDragging s |}.

Definition setError (v : ErrorValue) (s : AppState) : AppState :=
  {| patientInfo := patientInfo s;
     symptomDescription := symptomDescription s;
     reportComments := reportComments s;
     selectedTreatments := selectedTreatments s; isLoading := isLoading s;
     error := v; prescription := prescription s;
     activeTab := activeTab s; uploadedFiles := uploadedFiles s;
     isDragging := isDragging s |}.

Definition setPrescription (v : JsValue) (s : AppState) : AppState :=
  {| patientInfo := patientInfo s;
     symptomDescription := symptomDescription s;
     reportComments := reportComments s;
     selectedTreatments := selectedTreatments s; isLoading := isLoading s;
     error := error s; prescription := v;
     activeTab := activeTab s; uploadedFiles := uploadedFiles s;
     isDragging := isDragging s |}.

Definition setActiveTab (v : Tab) (s : AppState) : AppState :=
  {| patientInfo := patientInfo s;
     symptomDescription := symptomDescription s;
     reportComments := reportComments s;
     selectedTreatments := selectedTreatments s; isLoading := isLoading s;
     error := error s; prescription := prescription s;
     activeTab := v; uploadedFiles := uploadedFiles s;
     isDragging := isDragging s |}.

Definition setUploadedFiles (v : list File) (s : AppState) : AppState :=
  {| patientInfo := patientInfo s;
     symptomDescription := symptomDescription s;
     reportComments := reportComments s;
     selectedTreatments := selectedTreatments s; isLoading := isLoading s;
     error := error s; prescription := prescription s;
     activeTab := activeTab s; uploadedFiles := v;
     isDragging := isDragging s |}.

Definition setIsDragging (v : bool) (s : AppState) : AppState :=
  {| patientInfo := patientInfo s;
     symptomDescription := symptomDescription s;
     reportComments := reportComments s;
     selectedTreatments := selectedTreatments s; isLoading := isLoading s;
     error := error s; prescription := prescription s;
     activeTab := activeTab s; uploadedFiles := uploadedFiles s;
     isDragging := v |}.

(** The arguments of the [useState] calls. *)
Definition default_patientInfo : PatientInfo :=
  {| name := []; age := []; district := []; cell := []; religion := [];
     language := js "English" |}.

Definition initial_state : AppState :=
  {| patientInfo := default_patientInfo;
     symptomDescription := []; reportComments := [];
     selectedTreatments := []; isLoading := false; error := err_null;
     prescription := JNull; activeTab := TabText; uploadedFiles := [];
     isDragging := false |}.

(** *** File handling *)

Definition accepted_types : list jsstring :=
  [js "image/jpeg"; js "image/png"; js "application/pdf"].

(** The predicate of the filter in [handleFiles]. *)
Definition valid_file (file : File) : Prop :=
  file_type file ∈ accepted_types ∧ file_size file < 10 * 1024 * 1024.

#[global] Instance valid_file_dec file : Decision (valid_file file).
Proof. unfold valid_file. apply _. Defined.

(** The media types the form accepts, one by one. *)
Definition allowed_media_type (file : File) : Prop :=
  file_type file = js "image/jpeg" ∨ file_type file = js "image/png"
  ∨ file_type file = js "application/pdf".

Definition invalid_files_message : jsstring :=
  js "Some files were invalid. Only JPG, PNG, and PDF files under 10MB are accepted.".

(** [files] is [None] for the [null] file list. *)
Definition handleFiles (files : option (list File)) (s : AppState)
  : AppState :=
  match files with
  | None => s
  | Some newFiles =>
    let validFiles := filter valid_file newFiles in
    let s1 :=
      if decide (length validFiles ≠ length newFiles)
      then setError (err_string invalid_files_message) s
      else s in
    setUploadedFiles (uploadedFiles s1 ++ validFiles) s1
  end.

Definition handleDragEnter (s : AppState) : AppState := setIsDragging true s.

Definition handleDragLeave (s : AppState) : AppState := setIsDragging false s.

Definition handleDrop (files : option (list File)) (s : AppState) : AppState :=
  handleFiles files (setIsDragging false s).

Definition removeFile (fileName : jsstring) (s : AppState) : AppState :=
  setUploadedFiles
    (filter (λ file, file_name file ≠ fileName) (uploadedFiles s)) s.

(** *** Form fields *)

(** [{ ...prev, [name]: value }]: a name that is no field of
    [PatientInfo] adds a property that nothing reads. *)
Definition assign_field (target_name target_value : jsstring)
    (prev : PatientInfo) : PatientInfo :=
  if decide (target_name = js "name") then
    {| name := target_value; age := age prev; district := district prev;
       cell := cell prev; religion := religion prev;
       language := language prev |}
  else if decide (target_name = js "age") then
    {| name := name prev; age := target_value; district := district prev;
       cell := cell prev; religion := religion prev;
       language := language prev |}
  else if decide (target_name = js "district") then
    {| name := name prev; age := age prev; district := target_value;
       cell := cell prev; religion := religion prev;
       language := language prev |}
  else if decide (target_name = js "cell") then
    {| name := name prev; age := age prev; district := district prev;
       cell := target_value; religion := religion prev;
       language := language prev |}
  else if decide (target_name = js "religion") then
    {| name := name prev; age := age prev; district := district prev;
       cell := cell prev; religion := target_value;
       language := language prev |}
  else if decide (target_name = js "language") then
    {| name := name prev; age := age prev; district := district prev;
       cell := cell prev; religion := religion prev;
       language := target_value |}
  else prev.

(** [target_name] and [target_value] are [e.target.name] and
    [e.target.value]. *)
Definition handleInputChange (target_name target_value : jsstring)
    (s : AppState) : AppState :=
  let s1 :=
    if decide (target_name = js "religion") then
      match ReligiousTreatments !! religion (patientInfo s) with
      | Some currentReligiousTreatment =>
        if truthy currentReligiousTreatment then
          setSelectedTreatments
            (JsSet.delete currentReligiousTreatment (selectedTreatments s)) s
        else s
      | None => s
      end
    else s in
  setPatientInfo (assign_field target_name target_value (patientInfo s1)) s1.

Definition handleTreatmentToggle (treatment : jsstring) (s : AppState)
  : AppState :=
  setSelectedTreatments
    (if JsSet.has treatment (selectedTreatments s)
     then JsSet.delete treatment (selectedTreatments s)
     else JsSet.add treatment (selectedTreatments s)) s.

Definition resetForm (s : AppState) : AppState :=
  setActiveTab TabText
    (setUploadedFiles []
       (setError err_null
          (setPrescription JNull
             (setSelectedTreatments []
                (setReportComments []
                   (setSymptomDescription []
                      (setPatientInfo default_patientInfo s))))))).

Definition handleEdit (s : AppState) : AppState := setPrescription JNull s.

(** *** Submission *)

Definition validation_message : jsstring :=
  js "Please fill all required fields, describe your symptoms or upload a report, and select at least one treatment type.".

Definition descriptionForApi (s : AppState) : jsstring :=
  match activeTab s with
  | TabText => symptomDescription s
  | TabUpload => reportComments s
  end.

Definition isInputMissing (s : AppState) : bool :=
  match activeTab s with
  | TabText => bool_decide (trim (symptomDescription s) = [])
  | TabUpload => bool_decide (length (uploadedFiles s) = 0%nat)
  end.

(** The condition of the [if] that guards the submission. *)
Definition validation_fails (s : AppState) : bool :=
  negb (truthy (name (patientInfo s)))
  || negb (truthy (age (patientInfo s)))
  || negb (truthy (district (patientInfo s)))
  || negb (truthy (religion (patientInfo s)))
  || negb (truthy (language (patientInfo s)))
  || isInputMissing s
  || bool_decide (JsSet.size (selectedTreatments s) = 0%nat).

(** [String.prototype.split] on a one-character separator. *)
Fixpoint split_on (sep : N) (str : jsstring) : list jsstring :=
  match str with
  | [] => [[]]
  | c :: r =>
    if c =? sep then [] :: split_on sep r
    else
      match split_on sep r with
      | h :: t => (c :: h) :: t
      | [] => [[c]]
      end
  end.

(** [setError(err.message)]. *)
Definition error_of_message (m : option jsstring) : ErrorValue :=
  match m with
  | Some msg => err_string msg
  | None => err_undefined
  end.

(** The state once the synchronous part of an accepted submission ran. *)
Definition submitting (s : AppState) : AppState :=
  setPrescription JNull (setIsLoading true (setError err_null s)).

(** What the [try] ... [catch] ... [finally] does to the state [st] when
    the body of the [try] ended as [outcome]. *)
Definition settle (outcome : Completion JsValue) (st : AppState) : AppState :=
  setIsLoading false
    (match outcome with
     | Returns result => setPrescription result st
     | Throws err => setError (error_of_message (message_of err)) st
     end).

Section WithWorld.

(** [FileReader.readAsDataURL]: the data URL handed to [onload], or
    [None] when [onerror] fires instead. *)
Variable readAsDataURL : File → option jsstring.

(** [ai.models.generateContent]. *)
Variable generateContent : Request → ServiceOutcome.

Definition fileToPart (file : File) : Async FilePart :=
  perform (ReadAsDataURL file) ;;
  match readAsDataURL file with
  | Some result =>
    mret {| mimeType := file_type file;
            data := split_on 44 result !! 1%nat |}
  | None => throw FileReaderErrorEvent
  end.

(** [part] is what [fileToPart file] resolves to. *)
Definition encodes (file : File) (part : FilePart) : Prop :=
  ∃ result, readAsDataURL file = Some result
            ∧ part = {| mimeType := file_type file;
                        data := split_on 44 result !! 1%nat |}.

Definition readable (file : File) : Prop := is_Some (readAsDataURL file).

(** The body of the [try] in [handleSubmit], run on the state its
    closure captured. *)
Definition submit_body (s : AppState) : Async JsValue :=
  fileParts ← Promise_all (fileToPart <$> uploadedFiles s);
  let treatments := selectedTreatments s in
  geminiService.generatePrescription generateContent
    (patientInfo s) (descriptionForApi s) treatments fileParts.

(** [handleSubmit]: the effects performed and the state when the
    handler has run to its end. *)
Definition handleSubmit (s : AppState) : list Effect * AppState :=
  if validation_fails s then
    ([], setError (err_string validation_message) s)
  else
    let '(log, outcome) := submit_body s in
    (log, settle outcome (submitting s)).

End WithWorld.

(** The part of [handleSubmit] that runs at once, up to its first
    [await]: the form stays mounted, under the loading screen, until the
    awaited promise settles. *)
Definition handleSubmit_begin (s : AppState) : AppState :=
  if validation_fails s then setError (err_string validation_message) s
  else submitting s.

(** *** The component as a transition system *)

(** What can happen to the component: the user's actions, each with what
    it carries.  A submission is either [Submit], the handler run to its
    end with nothing in between (it comes with the behaviour of the reader
    and of the service during it), or its two halves with other events
    between them: [SubmitBegin], the part before the first [await], and
    [SubmitSettle], the part after it, with the outcome of the body of the
    [try], applied to the state the component is in by then. *)
Inductive Event :=
| InputChange (target_name target_value : jsstring)
| SymptomChange (value : jsstring)
| ReportCommentsChange (value : jsstring)
| TreatmentToggle (treatment : jsstring)
| TabClick (tab : Tab)
| FileChange (files : option (list File))
| Drop (files : option (list File))
| DragEnter
| DragLeave
| RemoveClick (fileName : jsstring)
| Submit (readAsDataURL : File → option jsstring)
         (generateContent : Request → ServiceOutcome)
| Edit
| Reset
| SubmitBegin
| SubmitSettle (outcome : Completion JsValue).

Definition handle (e : Event) (s : AppState) : AppState :=
  match e with
  | InputChange target_name target_value =>
    handleInputChange target_name target_value s
  | SymptomChange value => setSymptomDescription value s
  | ReportCommentsChange value => setReportComments value s
  | TreatmentToggle treatment => handleTreatmentToggle treatment s
  | TabClick tab => setActiveTab tab s
  | FileChange files => handleFiles files s
  | Drop files => handleDrop files s
  | DragEnter => handleDragEnter s
  | DragLeave => handleDragLeave s
  | RemoveClick fileName => removeFile fileName s
  | Submit readAsDataURL generateContent =>
    (handleSubmit readAsDataURL generateContent s).2
  | Edit => handleEdit s
  | Reset => resetForm s
  | SubmitBegin => handleSubmit_begin s
  | SubmitSettle outcome => settle outcome s
  end.

Inductive reachable : AppState → Prop :=
| reachable_initial : reachable initial_state
| reachable_handle s e : reachable s → reachable (handle e s).

(** A sequence of events, handled one after the other. *)
Definition run (events : list Event) (s : AppState) : AppState :=
  foldl (λ st e, handle e st) s events.

(** *** What the component shows *)

Inductive Phase := Editing | Submitting | Result | Error.

(** The message of the alert box, [error && <div>...{error}...</div>]. *)
Definition shown_error (e : ErrorValue) : option jsstring :=
  match e with
  | err_string msg => if truthy msg then Some msg else None
  | err_null | err_undefined => None
  end.

(** The loading screen covers everything while [isLoading]; otherwise
    the prescription is shown when [prescription] is truthy, and the form
    is, with the alert box when [error] is truthy. *)
Definition phase (s : AppState) : Phase :=
  if isLoading s then Submitting
  else if ToBoolean (prescription s) then Result
  else match shown_error (error s) with
       | Some _ => Error
       | None => Editing
       end.

(** What the user entered: everything but the loading flag, the error and
    the prescription. *)
Definition form_data (s : AppState)
  : PatientInfo * jsstring * jsstring * list jsstring * list File * Tab :=
  (patientInfo s, symptomDescription s, reportComments s,
   selectedTreatments s, uploadedFiles s, activeTab s).

(** Every field of the form holds the empty value of its type. *)
Definition form_is_empty (s : AppState) : Prop :=
  name (patientInfo s) = [] ∧ age (patientInfo s) = []
  ∧ district (patientInfo s) = [] ∧ cell (patientInfo s) = []
  ∧ religion (patientInfo s) = [] ∧ language (patientInfo s) = []
  ∧ symptomDescription s = [] ∧ reportComments s = []
  ∧ selectedTreatments s = [] ∧ uploadedFiles s = []
  ∧ error s = err_null ∧ prescription s = JNull.

(** *** What the rendered form offers *)

Definition supportedLanguages : list jsstring :=
  [js "English"; js "Mandarin Chinese"; js "Hindi"; js "Spanish";
   js "French"; js "Arabic"; js "Bengali"; js "Portuguese"; js "Russian";
   js "Urdu"].

(** The values of the options of the religion select that can be chosen
    (the empty option is disabled). *)
Definition religion_options : list jsstring :=
  [js "Islam"; js "Christianity"; js "Hinduism"; js "Buddhism";
   js "Sikhism"; js "Judaism"; js "Baháʼí Faith";
   js "Chinese Folk Religion"; js "Spiritism";
   js "Ethnic/Indigenous Religions"; js "Other"].

(** [religiousTreatment], looked up at every render. *)
Definition religiousTreatment (s : AppState) : option jsstring :=
  ReligiousTreatments !! religion (patientInfo s).

(** The treatments that have a check box: [Object.values(TreatmentType)],
    then [religiousTreatment] when it is truthy. *)
Definition offered_treatments (s : AppState) : list jsstring :=
  [TreatmentType_value Hikmat; TreatmentType_value Homeopathy;
   TreatmentType_value SpecialistDoctors]
  ++ match religiousTreatment s with
     | Some label => if truthy label then [label] else []
     | None => []
     end.

(** The form is rendered when [!prescription]; the prescription view, with
    its edit and reset callbacks, otherwise. *)
Definition form_shown (s : AppState) : bool := negb (ToBoolean (prescription s)).

(** The events the rendered component lets through, at most: the patient
    fields by their input names, with the selects limited to their options;
    a check box for each offered treatment; the textarea of the symptom
    text on the text tab; the drop zone, the file input, the file list and
    the comments on the upload tab; the submit button unless loading; the
    end of a submission while loading; edit and reset from the prescription
    view.  The form is offered while loading too: it stays mounted under
    the loading screen. *)
Definition offered (s : AppState) (e : Event) : Prop :=
  match e with
  | InputChange target_name target_value =>
    form_shown s = true
    ∧ (target_name ∈ [js "name"; js "age"; js "district"; js "cell"]
       ∨ (target_name = js "religion" ∧ target_value ∈ religion_options)
       ∨ (target_name = js "language" ∧ target_value ∈ supportedLanguages))
  | TreatmentToggle treatment =>
    form_shown s = true ∧ treatment ∈ offered_treatments s
  | TabClick _ => form_shown s = true
  | SymptomChange _ => form_shown s = true ∧ activeTab s = TabText
  | ReportCommentsChange _ | FileChange _ | Drop _ | DragEnter | DragLeave =>
    form_shown s = true ∧ activeTab s = TabUpload
  | RemoveClick fileName =>
    form_shown s = true ∧ activeTab s = TabUpload
    ∧ ∃ file, file ∈ uploadedFiles s ∧ file_name file = fileName
  | Submit _ _ | SubmitBegin => form_shown s = true ∧ isLoading s = false
  | SubmitSettle _ => isLoading s = true
  | Edit | Reset => form_shown s = false
  end.

Inductive ui_reachable : AppState → Prop :=
| ui_reachable_initial : ui_reachable initial_state
| ui_reachable_handle s e :
    ui_reachable s → offered s e → ui_reachable (handle e s).

(** What the rendered component keeps true: only offered treatments are
    selected, religion and language are options of their selects (or the
    religion is still empty), and while the prescription view is shown no
    submission is in flight. *)
Definition well_formed_form (s : AppState) : Prop :=
  (∀ treatment, treatment ∈ selectedTreatments s →
                treatment ∈ offered_treatments s)
  ∧ (religion (patientInfo s) = []
     ∨ religion (patientInfo s) ∈ religion_options)
  ∧ language (patientInfo s) ∈ supportedLanguages
  ∧ (form_shown s = false → isLoading s = false).

(** Every event of the sequence is offered in the state it arrives in. *)
Fixpoint offered_run (events : list Event) (s : AppState) : Prop :=
  match events with
  | [] => True
  | e :: rest => offered s e ∧ offered_run rest (handle e s)
  end.

End App.

Import App.

(** ** Concrete forms, files and worlds used in the examples below *)

Module Scenario.

(** The patient of the scenario in section 8 of the specification. *)
Definition aisha : PatientInfo :=
  {| name := js "Aisha"; age := js "29"; district := js "Lahore";
     cell := []; religion := js "Islam"; language := js "Urdu" |}.

Definition aisha_treatments : list jsstring :=
  [js "Allopathy (Specialist Doctors)"; js "Quran & Asma-ul-Husna"].

(** The form filled in for that patient, on the text tab. *)
Definition text_form : AppState :=
  {| patientInfo := aisha; symptomDescription := js "fever and cough";
     reportComments := []; selectedTreatments := aisha_treatments;
     isLoading := false; error := err_null; prescription := JNull;
     activeTab := TabText; uploadedFiles := []; isDragging := false |}.

Definition scan : File :=
  {| file_name := js "scan.png"; file_type := js "image/png";
     file_size := 204800 |}.

Definition report : File :=
  {| file_name := js "report.pdf"; file_type := js "application/pdf";
     file_size := 10485759 |}.

Definition too_large : File :=
  {| file_name := js "big.png"; file_type := js "image/png";
     file_size := 10485760 |}.

Definition wrong_type : File :=
  {| file_name := js "notes.txt"; file_type := js "text/plain";
     file_size := 12 |}.

(** The same form on the upload tab, with one accepted file. *)
Definition upload_form : AppState :=
  setUploadedFiles [scan]
    (setActiveTab TabUpload
       (setReportComments (js "please check the kidney values") text_form)).

(** The upload form switched back to the text tab: the accepted file and
    the report comments are still there. *)
Definition text_form_with_file : AppState :=
  setActiveTab TabText upload_form.

(** The upload form once a submission succeeded: it shows a result. *)
Definition form_with_result : AppState :=
  setPrescription
    (JObject [(js "illnessTitle", JString (js "Flu"));
              (js "prescriptionContent", JString (js "## Plan"));
              (js "advice", JString (js "## General Advice"))])
    upload_form.

(** The text form with the name left empty. *)
Definition nameless_form : AppState :=
  setPatientInfo
    {| name := []; age := js "29"; district := js "Lahore"; cell := [];
       religion := js "Islam"; language := js "Urdu" |}
    text_form.

(** A reader that succeeds on every file, and one that fails on every
    file. *)
Definition reads_fine : File → option jsstring :=
  λ _, Some (js "data:image/png;base64,iVBORw0KGgo=").

Definition reads_fail : File → option jsstring := λ _, None.

(** A service that answers every request with the same text. *)
Definition replies (reply : jsstring) : Request → ServiceOutcome :=
  λ _, ServiceResponds (Some reply).

(** A reply with all three fields, one with only a title, and one that is
    cut off. *)
Definition full_reply : jsstring :=
  js "{" ++ dquote ++ js "illnessTitle" ++ dquote ++ js ": "
    ++ dquote ++ js "Flu" ++ dquote ++ js ", "
    ++ dquote ++ js "prescriptionContent" ++ dquote ++ js ": "
    ++ dquote ++ js "## Plan" ++ dquote ++ js ", "
    ++ dquote ++ js "advice" ++ dquote ++ js ": "
    ++ dquote ++ js "## General Advice" ++ dquote ++ js "}".

Definition title_only_reply : jsstring :=
  js "{" ++ dquote ++ js "illnessTitle" ++ dquote ++ js ": "
    ++ dquote ++ js "Flu" ++ dquote ++ js "}".

Definition cut_off_reply : jsstring :=
  js "{" ++ dquote ++ js "illnessTitle" ++ dquote ++ js ": "
    ++ dquote ++ js "Fl".

(** A service whose call fails, with an error of its own. *)
Definition fails : Request → ServiceOutcome :=
  λ _, ServiceFails (ErrorObject (js "503 Service Unavailable")).

(** A reader that hands back a text without a comma. *)
Definition reads_no_comma : File → option jsstring := λ _, Some (js "data:").

(** The user's actions that lead to these forms. *)
Definition fill_in_text_form : list Event :=
  [InputChange (js "name") (js "Aisha");
   InputChange (js "age") (js "29");
   InputChange (js "district") (js "Lahore");
   InputChange (js "religion") (js "Islam");
   InputChange (js "language") (js "Urdu");
   TreatmentToggle (js "Allopathy (Specialist Doctors)");
   TreatmentToggle (js "Quran & Asma-ul-Husna");
   SymptomChange (js "fever and cough")].

Definition go_to_upload : list Event :=
  [TabClick TabUpload;
   ReportCommentsChange (js "please check the kidney values");
   FileChange (Some [scan])].

End Scenario.

(** * Properties *)

(** ** Attachments: [removeFile] and [handleFiles] *)

Section Attachments.

Implicit Types (s : AppState) (file : File) (fileName : jsstring).

Lemma removeFile_uploadedFiles fileName s :
  uploadedFiles (removeFile fileName s)
  = filter (λ file, file_name file ≠ fileName) (uploadedFiles s).
Proof. reflexivity. Qed.

(** C10.  [removeFile fileName] keeps exactly the accepted files whose
    name differs from [fileName]: a file is kept if and only if it was
    accepted and has another name, the kept files are a subsequence of the
    accepted ones (same relative order), and together with all the files
    named [fileName] they make up the accepted list again, so no file with
    another name is dropped or duplicated and every file named [fileName]
    goes, however many there are. *)
Theorem removeFile_removes_every_file_of_that_name fileName s :
  (∀ file, file ∈ uploadedFiles (removeFile fileName s)
           ↔ file ∈ uploadedFiles s ∧ file_name file ≠ fileName)
  ∧ uploadedFiles (removeFile fileName s) `sublist_of` uploadedFiles s
  ∧ uploadedFiles s
    ≡ₚ uploadedFiles (removeFile fileName s)
       ++ filter (λ file, file_name file = fileName) (uploadedFiles s).
Proof.
  rewrite removeFile_uploadedFiles. split_and!.
  - intros file. rewrite list_elem_of_filter. tauto.
  - apply sublist_filter.
  - rewrite <- (filter_app_complement
                  (λ file, file_name file ≠ fileName) (uploadedFiles s)) at 1.
    f_equiv. erewrite list_filter_iff; [done|].
    intros file. simpl. destruct (decide (file_name file = fileName)); tauto.
Qed.

(** Two accepted files that share a name go together; the file between
    them stays. *)
Example removeFile_same_name :
  let scan1 := {| file_name := js "scan.png"; file_type := js "image/png";
                  file_size := 100 |} in
  let notes := {| file_name := js "notes.pdf";
                  file_type := js "application/pdf"; file_size := 200 |} in
  let scan2 := {| file_name := js "scan.png"; file_type := js "image/png";
                  file_size := 300 |} in
  uploadedFiles
    (removeFile (js "scan.png")
       (setUploadedFiles [scan1; notes; scan2] initial_state))
  = [notes].
Proof. vm_compute. reflexivity. Qed.

Lemma valid_file_iff file :
  valid_file file ↔ allowed_media_type file ∧ file_size file < 10485760.
Proof.
  unfold valid_file, allowed_media_type, accepted_types.
  rewrite !elem_of_cons, elem_of_nil.
  change (10 * 1024 * 1024) with 10485760. tauto.
Qed.

Lemma handleFiles_uploadedFiles (batch : list File) s :
  uploadedFiles (handleFiles (Some batch) s)
  = uploadedFiles s ++ filter valid_file batch.
Proof. unfold handleFiles. simpl. by case_decide. Qed.

Lemma handleFiles_error (batch : list File) s :
  error (handleFiles (Some batch) s)
  = if decide (Forall valid_file batch) then error s
    else err_string invalid_files_message.
Proof.
  unfold handleFiles. simpl.
  destruct (decide (Forall valid_file batch)) as [Hall|Hnot].
  - rewrite decide_False; [done|].
    intros Hne. apply Hne. f_equal. clear Hne.
    induction Hall as [|x l Hx Hl IH]; [done|].
    by rewrite filter_cons_True, IH.
  - rewrite decide_True; [done|].
    intros Hlen. apply Hnot. apply Forall_forall. intros x Hx.
    destruct (decide (valid_file x)) as [|Hbad]; [done|].
    pose proof (length_filter_lt valid_file batch x Hx Hbad). lia.
Qed.

(** C3.  For a batch of selected files, on a state whose accepted files
    all passed the check (every state the component reaches is one, see
    [reachable_invariant]): the files appended to the accepted list are a
    subsequence of the batch and are exactly its files with an allowed
    media type and a size below 10 MiB (each as often as it occurs); a
    file of the batch with another media type or a size of at least
    10 MiB is not in the accepted list afterwards; the warning is stored
    as the error when at least one file of the batch was left out, and
    the error is untouched when none was. *)
Theorem handleFiles_accepts_exactly_the_valid_files (batch : list File) s :
  Forall valid_file (uploadedFiles s) →
  ∃ appended,
    uploadedFiles (handleFiles (Some batch) s) = uploadedFiles s ++ appended
    ∧ appended `sublist_of` batch
    ∧ batch ≡ₚ appended ++ filter (λ file, ¬ valid_file file) batch
    ∧ (∀ file, file ∈ batch → allowed_media_type file →
               file_size file < 10485760 → file ∈ appended)
    ∧ (∀ file, file ∈ batch →
               ¬ allowed_media_type file ∨ 10485760 ≤ file_size file →
               file ∉ uploadedFiles (handleFiles (Some batch) s))
    ∧ ((∃ file, file ∈ batch
                ∧ (¬ allowed_media_type file ∨ 10485760 ≤ file_size file)) →
       error (handleFiles (Some batch) s) = err_string invalid_files_message)
    ∧ ((∀ file, file ∈ batch →
                allowed_media_type file ∧ file_size file < 10485760) →
       error (handleFiles (Some batch) s) = error s).
Proof.
  intros Hinv. exists (filter valid_file batch).
  rewrite handleFiles_uploadedFiles, handleFiles_error. split_and!.
  - done.
  - apply sublist_filter.
  - by rewrite filter_app_complement.
  - intros file Hin Hty Hsz. apply list_elem_of_filter.
    split; [|done]. apply valid_file_iff. done.
  - intros file Hin Hbad Hacc.
    assert (valid_file file) as Hv.
    { apply elem_of_app in Hacc as [Hold|Hnew].
      - rewrite Forall_forall in Hinv. by apply Hinv.
      - by apply list_elem_of_filter in Hnew as [? _]. }
    apply valid_file_iff in Hv as [Hty Hsz]. destruct Hbad; [done|lia].
  - intros (file & Hin & Hbad). rewrite decide_False; [done|].
    intros Hall. rewrite Forall_forall in Hall.
    apply Hall, valid_file_iff in Hin as [Hty Hsz]. destruct Hbad; [done|lia].
  - intros Hall. rewrite decide_True; [done|].
    apply Forall_forall. intros file Hin. apply valid_file_iff. by apply Hall.
Qed.

Lemma handleFiles_null s : handleFiles None s = s.
Proof. reflexivity. Qed.

End Attachments.

(** ** The form: [handleInputChange] and [resetForm] *)

Section Form.

Implicit Types (s : AppState) (label value : jsstring).

(** Every label of the religion table is a non-empty string, so the test
    [if (currentReligiousTreatment)] passes whenever the lookup finds
    one. *)
Lemma ReligiousTreatments_truthy r label :
  ReligiousTreatments !! r = Some label → truthy label = true.
Proof.
  intros H. apply elem_of_list_to_map_2 in H.
  repeat (apply elem_of_cons in H as [H|H];
          [by injection H as _ ->|]).
  by apply elem_of_nil in H.
Qed.

(** No label of the religion table is one of the three general
    modalities. *)
Lemma ReligiousTreatments_not_general r label (t : TreatmentType) :
  ReligiousTreatments !! r = Some label → TreatmentType_value t ≠ label.
Proof.
  intros H. apply elem_of_list_to_map_2 in H.
  repeat (apply elem_of_cons in H as [H|H];
          [injection H as _ ->; by destruct t|]).
  by apply elem_of_nil in H.
Qed.

Lemma handleInputChange_religion s value label :
  ReligiousTreatments !! religion (patientInfo s) = Some label →
  handleInputChange (js "religion") value s
  = setPatientInfo (assign_field (js "religion") value (patientInfo s))
      (setSelectedTreatments (JsSet.delete label (selectedTreatments s)) s).
Proof.
  intros H. unfold handleInputChange.
  rewrite decide_True by done. rewrite H.
  by rewrite (ReligiousTreatments_truthy _ _ H).
Qed.

(** C4.  When the religion field changes from a religion that implies the
    label [label] to a value [value], different or not: the new religion is
    stored, [label] is no longer selected, every other label is selected
    afterwards exactly when it was before (in particular each of the three
    general modalities), and the selection keeps its order. *)
Theorem religion_change_removes_only_the_implied_label s value label :
  ReligiousTreatments !! religion (patientInfo s) = Some label →
  religion (patientInfo (handleInputChange (js "religion") value s)) = value
  ∧ (label ∉ selectedTreatments (handleInputChange (js "religion") value s))
  ∧ (∀ other, other ≠ label →
       (other ∈ selectedTreatments (handleInputChange (js "religion") value s)
        ↔ other ∈ selectedTreatments s))
  ∧ (∀ t : TreatmentType,
       TreatmentType_value t
         ∈ selectedTreatments (handleInputChange (js "religion") value s)
       ↔ TreatmentType_value t ∈ selectedTreatments s)
  ∧ selectedTreatments (handleInputChange (js "religion") value s)
      `sublist_of` selectedTreatments s.
Proof.
  intros Hlabel. rewrite (handleInputChange_religion _ _ _ Hlabel).
  simpl. unfold JsSet.delete. split_and!.
  - reflexivity.
  - rewrite list_elem_of_filter. tauto.
  - intros other Hne. rewrite list_elem_of_filter. tauto.
  - intros t. rewrite list_elem_of_filter.
    pose proof (ReligiousTreatments_not_general _ _ t Hlabel). tauto.
  - apply sublist_filter.
Qed.

(** A religion without an implied label (the empty initial value, or
    [Other]) leaves the selection as it is. *)
Lemma handleInputChange_religion_unmapped s value :
  ReligiousTreatments !! religion (patientInfo s) = None →
  selectedTreatments (handleInputChange (js "religion") value s)
  = selectedTreatments s.
Proof. intros H. unfold handleInputChange. rewrite decide_True by done. by rewrite H. Qed.

(** C8, as the code has it.  [resetForm] puts every cell it writes back to
    the argument of its [useState]: the patient fields are empty except
    [language], which is [English]; both texts, the selection and the
    attachments are empty; error and prescription are [null]; the tab is
    the text tab.  It does not write [isLoading] (nor [isDragging]), so the
    form is back in [Editing] unless a submission is in flight. *)
Theorem resetForm_restores_the_initial_values s :
  resetForm s
  = {| patientInfo :=
         {| name := []; age := []; district := []; cell := [];
            religion := []; language := js "English" |};
       symptomDescription := []; reportComments := [];
       selectedTreatments := []; isLoading := isLoading s;
       error := err_null; prescription := JNull; activeTab := TabText;
       uploadedFiles := []; isDragging := isDragging s |}
  ∧ phase (resetForm s) = (if isLoading s then Submitting else Editing).
Proof.
  split; [reflexivity|]. unfold phase. simpl. by destruct (isLoading s).
Qed.

End Form.

(** ** The prompt *)

Section Occurrences.

Implicit Types (needle hay : jsstring).

Lemma occurs_in_refl needle : occurs_in needle needle.
Proof. exists [], []. by rewrite app_nil_r. Qed.

Lemma occurs_in_app_l needle hay more :
  occurs_in needle hay → occurs_in needle (hay ++ more).
Proof.
  intros (b & a & ->). exists b, (a ++ more). by rewrite <- !app_assoc.
Qed.

Lemma occurs_in_app_r needle hay more :
  occurs_in needle hay → occurs_in needle (more ++ hay).
Proof.
  intros (b & a & ->). exists (more ++ b), a. by rewrite <- !app_assoc.
Qed.

Lemma occurs_in_trans needle mid hay :
  occurs_in needle mid → occurs_in mid hay → occurs_in needle hay.
Proof.
  intros Hn (b & a & ->). by apply occurs_in_app_r, occurs_in_app_l.
Qed.

(** The needle is the end of the first piece followed by the start of the
    rest. *)
Lemma occurs_in_seam (a a' rest rest' : jsstring) :
  a `suffix_of` a' → rest `prefix_of` rest' →
  occurs_in (a ++ rest) (a' ++ rest').
Proof.
  intros [p ->] [q ->]. exists p, q. by rewrite <- !app_assoc.
Qed.

Lemma occurs_in_suffix needle hay : needle `suffix_of` hay → occurs_in needle hay.
Proof. intros [p ->]. apply occurs_in_app_r, occurs_in_refl. Qed.

Lemma occurs_in_join sep (parts : list jsstring) i part needle :
  parts !! i = Some part → occurs_in needle part →
  occurs_in needle (join sep parts).
Proof.
  revert i. induction parts as [|p rest IH]; intros i Hi Hn; [done|].
  destruct i as [|i]; simpl in Hi.
  - injection Hi as ->. destruct rest; simpl; [done|].
    by apply occurs_in_app_l.
  - destruct rest as [|q rest]; [done|].
    change (join sep (p :: q :: rest)) with (p ++ sep ++ join sep (q :: rest)).
    apply occurs_in_app_r, occurs_in_app_r. by eapply IH.
Qed.

End Occurrences.

(** Deciding a closed statement by evaluation. *)
Ltac by_evaluation := apply (bool_decide_unpack _); vm_compute; exact I.

Section Prompt.

Import geminiService.

Variables (patientInfo : PatientInfo) (illnessDescription : jsstring)
          (selectedTreatments : list jsstring).

(** The rule for allopathy is in every prompt. *)
Lemma prompt_has_allopathy_rule hasFiles :
  occurs_in
    (js "- For **Allopathy (Specialist Doctors)**, act as a board-certified specialist for the specific condition. Prescribe a comprehensive, high-quality, and modern treatment plan. Include primary medications, any necessary supportive therapies (e.g., vitamins, antacids), and suggest relevant diagnostic tests if needed. Use the format: `Medicine Name, Dosage (e.g., 500mg, 1+1+1), Duration (e.g., 5 days)`. List each item on a new bullet point (*). Ensure the prescription is evidence-based and professional.")
    (prompt patientInfo illnessDescription selectedTreatments hasFiles).
Proof.
  unfold prompt. eapply (occurs_in_join _ _ 7); [reflexivity|].
  apply occurs_in_suffix. by_evaluation.
Qed.

Lemma religiousRules_elem treatment fragment :
  treatment ∈ selectedTreatments →
  religiousTreatmentPrompts !! treatment = Some fragment →
  truthy fragment = true →
  fragment ∈ religiousRules selectedTreatments.
Proof.
  intros Hin Hlook Htruthy. unfold religiousRules.
  apply list_elem_of_omap. exists (Some fragment). split.
  - apply list_elem_of_fmap. by exists treatment.
  - simpl. by rewrite Htruthy.
Qed.

(** The fragment of a selected religious label is in the prompt. *)
Lemma prompt_has_religious_fragment treatment fragment hasFiles :
  treatment ∈ selectedTreatments →
  religiousTreatmentPrompts !! treatment = Some fragment →
  truthy fragment = true →
  occurs_in fragment
    (prompt patientInfo illnessDescription selectedTreatments hasFiles).
Proof.
  intros Hin Hlook Htruthy.
  pose proof (religiousRules_elem _ _ Hin Hlook Htruthy) as Hrule.
  apply list_elem_of_lookup in Hrule as [i Hi].
  unfold prompt. eapply (occurs_in_join _ _ 10); [reflexivity|].
  apply occurs_in_app_r. eapply occurs_in_join; [exact Hi|].
  apply occurs_in_refl.
Qed.

(** With attachments, the prompt has the report-analysis task and
    response structure. *)
Lemma prompt_report_form :
  occurs_in
    (js "- The 'prescriptionContent' value MUST start with the 'Report Analysis Summary' section.")
    (prompt patientInfo illnessDescription selectedTreatments true)
  ∧ occurs_in
      (js "Create a level 2 heading " ++ dquote ++ js "Report Analysis Summary" ++ dquote ++ js " (translated to " ++ language patientInfo ++ js "). List **ONLY abnormal findings** in bullet points. Do not mention normal results.")
      (prompt patientInfo illnessDescription selectedTreatments true).
Proof.
  unfold prompt. split.
  - eapply (occurs_in_join _ _ 22); [reflexivity|]. apply occurs_in_app_r.
    eapply (occurs_in_join _ _ 9); [reflexivity|].
    apply occurs_in_suffix. by_evaluation.
  - eapply (occurs_in_join _ _ 22); [reflexivity|]. apply occurs_in_app_r.
    eapply (occurs_in_join _ _ 4); [reflexivity|].
    apply occurs_in_seam; [by_evaluation|]. do 5 apply prefix_app. done.
Qed.

(** Without attachments, the prompt asks for a heading per treatment type
    and lists the selected treatments. *)
Lemma prompt_text_form :
  occurs_in
    (js "- The 'prescriptionContent' value MUST contain a level 2 heading for each treatment type (e.g., " ++ dquote ++ js "Homeopathy Prescription" ++ dquote ++ js "), translated to " ++ language patientInfo ++ js ".")
    (prompt patientInfo illnessDescription selectedTreatments false)
  ∧ occurs_in
      (js "Provide plans for the selected methodologies: **" ++ join (js ", ") selectedTreatments ++ js "**")
      (prompt patientInfo illnessDescription selectedTreatments false).
Proof.
  unfold prompt. split.
  - eapply (occurs_in_join _ _ 22); [reflexivity|]. apply occurs_in_app_r.
    eapply (occurs_in_join _ _ 8); [reflexivity|].
    apply occurs_in_seam; [by_evaluation|]. do 5 apply prefix_app. done.
  - eapply (occurs_in_join _ _ 22); [reflexivity|]. apply occurs_in_app_r.
    eapply (occurs_in_join _ _ 4); [reflexivity|].
    apply occurs_in_seam; [by_evaluation|]. apply prefix_app. by_evaluation.
Qed.

Lemma request_text (files : list FilePart) :
  text (request patientInfo illnessDescription selectedTreatments files)
  = prompt patientInfo illnessDescription selectedTreatments
      (match files with [] => false | _ :: _ => true end).
Proof. by destruct files. Qed.



(** C5.  The prompt that [generatePrescription] builds for a list of
    attachments: when the list is non-empty, it tells the service that
    [prescriptionContent] must start with the Report Analysis Summary
    section, a level 2 heading translated to the patient's language under
    which only abnormal findings are listed; when the list is empty, it
    tells the service that [prescriptionContent] must contain a level 2
    heading for each treatment type, translated to the patient's language,
    and names the selected treatments. *)
Theorem prompt_structure_follows_attachments (files : list FilePart) :
  match files with
  | _ :: _ =>
    occurs_in
      (js "- The 'prescriptionContent' value MUST start with the 'Report Analysis Summary' section.")
      (text (request patientInfo illnessDescription selectedTreatments files))
    ∧ occurs_in
        (js "Create a level 2 heading " ++ dquote ++ js "Report Analysis Summary" ++ dquote ++ js " (translated to " ++ language patientInfo ++ js "). List **ONLY abnormal findings** in bullet points. Do not mention normal results.")
        (text (request patientInfo illnessDescription selectedTreatments files))
  | [] =>
    occurs_in
      (js "- The 'prescriptionContent' value MUST contain a level 2 heading for each treatment type (e.g., " ++ dquote ++ js "Homeopathy Prescription" ++ dquote ++ js "), translated to " ++ language patientInfo ++ js ".")
      (text (request patientInfo illnessDescription selectedTreatments files))
    ∧ occurs_in
        (js "Provide plans for the selected methodologies: **" ++ join (js ", ") selectedTreatments ++ js "**")
        (text (request patientInfo illnessDescription selectedTreatments files))
  end.
Proof.
  rewrite request_text. destruct files.
  - apply prompt_text_form.
  - apply prompt_report_form.
Qed.

End Prompt.

(** ** [JSON.parse]: the fuel is enough *)

Section JsonFuel.

Import JSON.

Lemma skip_ws_length s : (length (skip_ws s) ≤ length s)%nat.
Proof.
  induction s as [|c s IH]; [done|]. simpl.
  destruct (is_ws c); simpl; lia.
Qed.

Lemma parse_string_body_length_bounded (n : nat) s t rest :
  (length s ≤ n)%nat →
  parse_string_body s = Some (t, rest) → (length rest < length s)%nat.
Proof.
  revert s t rest. induction n as [|n IH]; intros s t rest Hn H.
  { destruct s; [done|simpl in Hn; lia]. }
  destruct s as [|c r]; [done|]. simpl in H, Hn.
  destruct (c =? 34); [injection H as _ <-; simpl; lia|].
  destruct (c =? 92).
  - destruct r as [|e r1]; [done|]. simpl in Hn.
    destruct (e =? 117).
    + destruct r1 as [|h1 [|h2 [|h3 [|h4 r2]]]]; try done.
      destruct (hex4 h1 h2 h3 h4); [|done].
      destruct (parse_string_body r2) as [[t' rest']|] eqn:Hr; [|done].
      injection H as _ <-. apply IH in Hr; simpl in *; lia.
    + destruct (escape_char e); [|done].
      destruct (parse_string_body r1) as [[t' rest']|] eqn:Hr; [|done].
      injection H as _ <-. apply IH in Hr; simpl in *; lia.
  - destruct (c <? 32); [done|].
    destruct (parse_string_body r) as [[t' rest']|] eqn:Hr; [|done].
    injection H as _ <-. apply IH in Hr; simpl in *; lia.
Qed.

Lemma parse_string_body_length s t rest :
  parse_string_body s = Some (t, rest) → (length rest < length s)%nat.
Proof. by apply (parse_string_body_length_bounded (length s)). Qed.

Lemma span_digits_length s acc len v k rest :
  span_digits s acc len = (v, k, rest) →
  (len ≤ k ∧ length rest + k = length s + len)%nat.
Proof.
  revert acc len. induction s as [|c s IH]; intros acc len H; simpl in H.
  - injection H as _ <- <-. done.
  - destruct (is_digit c).
    + apply IH in H. simpl. lia.
    + injection H as _ <- <-. done.
Qed.

Lemma strip_prefix_length lit s rest :
  strip_prefix lit s = Some rest → (length rest + length lit = length s)%nat.
Proof.
  revert s. induction lit as [|a lit IH]; intros s H; simpl in H.
  - injection H as <-. simpl. lia.
  - destruct s as [|b s]; [done|]. destruct (a =? b); [|done].
    apply IH in H. simpl. lia.
Qed.

Lemma parse_exponent_length s e rest :
  parse_exponent s = Some (e, rest) → (length rest ≤ length s)%nat.
Proof.
  unfold parse_exponent. destruct s as [|c r]; [by intros [= _ <-]|].
  destruct ((c =? 101) || (c =? 69)); [|by intros [= _ <-]].
  destruct r as [|d r'].
  - simpl. discriminate.
  - destruct (d =? 43); [|destruct (d =? 45)];
      (destruct (span_digits _ 0 0) as [[v k] rest'] eqn:Hs;
       apply span_digits_length in Hs; destruct k; [done|];
       intros [= _ <-]; simpl in *; lia).
Qed.

Lemma parse_fraction_length s int m k rest :
  parse_fraction s int = Some (m, k, rest) → (length rest ≤ length s)%nat.
Proof.
  unfold parse_fraction. destruct s as [|c r]; [by intros [= _ _ <-]|].
  destruct (c =? 46); [|by intros [= _ _ <-]].
  destruct (span_digits r int 0) as [[v k'] rest'] eqn:Hs.
  apply span_digits_length in Hs. destruct k'; [done|].
  intros [= _ _ <-]. simpl in *. lia.
Qed.

Lemma parse_number_length s v rest :
  parse_number s = Some (v, rest) → (length rest < length s)%nat.
Proof.
  unfold parse_number.
  set (signed := match s with
                 | c :: r => if c =? 45 then (true, r) else (false, s)
                 | [] => (false, s)
                 end).
  assert (length signed.2 ≤ length s)%nat as Hsigned.
  { subst signed. destruct s as [|c r]; [done|].
    destruct (c =? 45); simpl; lia. }
  destruct signed as [neg s1]. simpl in Hsigned.
  destruct s1 as [|c r]; [done|].
  set (int_part := if c =? 48 then Some (0, r)
                   else if is_digit c then
                     let '(v, _, rest) := span_digits (c :: r) 0 0 in
                     Some (v, rest)
                   else None).
  assert (∀ i s2, int_part = Some (i, s2) → length s2 < length (c :: r))%nat
    as Hint.
  { subst int_part. intros i s2. destruct (c =? 48).
    - intros [= _ <-]. simpl. lia.
    - destruct (is_digit c) eqn:Hd; [|done]. simpl. rewrite Hd.
      destruct (span_digits r _ 1) as [[v' k] rest'] eqn:Hs.
      apply span_digits_length in Hs. intros [= _ <-]. simpl. 
      lia. }
  destruct int_part as [[i s2]|]; [|done].
  specialize (Hint i s2 eq_refl).
  destruct (parse_fraction s2 i) as [[[m k] s3]|] eqn:Hf; [|done].
  apply parse_fraction_length in Hf.
  destruct (parse_exponent s3) as [[e s4]|] eqn:He; [|done].
  apply parse_exponent_length in He.
  intros [= _ <-]. lia.
Qed.

Lemma parse_value_S fuel s :
  parse_value (S fuel) s
  = match skip_ws s with
    | [] => None
    | c :: r =>
      if c =? 123 then
        match skip_ws r with
        | c' :: r' =>
          if c' =? 125 then Some (JObject [], r')
          else parse_members fuel r []
        | [] => None
        end
      else if c =? 91 then
        match skip_ws r with
        | c' :: r' =>
          if c' =? 93 then Some (JArray [], r')
          else parse_elements fuel r []
        | [] => None
        end
      else if c =? 34 then
        match parse_string_body r with
        | Some (str, rest) => Some (JString str, rest)
        | None => None
        end
      else if c =? 116 then
        match strip_prefix (js "true") (c :: r) with
        | Some rest => Some (JBool true, rest)
        | None => None
        end
      else if c =? 102 then
        match strip_prefix (js "false") (c :: r) with
        | Some rest => Some (JBool false, rest)
        | None => None
        end
      else if c =? 110 then
        match strip_prefix (js "null") (c :: r) with
        | Some rest => Some (JNull, rest)
        | None => None
        end
      else parse_number (c :: r)
    end.
Proof. reflexivity. Qed.

Lemma parse_elements_S fuel s acc :
  parse_elements (S fuel) s acc
  = match parse_value fuel s with
    | None => None
    | Some (v, r) =>
      match skip_ws r with
      | c :: r' =>
        if c =? 44 then parse_elements fuel r' (acc ++ [v])
        else if c =? 93 then Some (JArray (acc ++ [v]), r')
        else None
      | [] => None
      end
    end.
Proof. reflexivity. Qed.

Lemma parse_members_S fuel s acc :
  parse_members (S fuel) s acc
  = match skip_ws s with
    | c :: r =>
      if c =? 34 then
        match parse_string_body r with
        | None => None
        | Some (k, r1) =>
          match skip_ws r1 with
          | c1 :: r2 =>
            if c1 =? 58 then
              match parse_value fuel r2 with
              | None => None
              | Some (v, r3) =>
                match skip_ws r3 with
                | c3 :: r4 =>
                  if c3 =? 44 then
                    parse_members fuel r4 (define_property k v acc)
                  else if c3 =? 125 then
                    Some (JObject (define_property k v acc), r4)
                  else None
                | [] => None
                end
              end
            else None
          | [] => None
          end
        end
      else None
    | [] => None
    end.
Proof. reflexivity. Qed.

(** A successful descent reads at least one character, and succeeds with
    the same result on any fuel that is at least twice the number of
    characters it read. *)
Lemma parse_fuel_adequate (n : nat) :
  (∀ s v rest, parse_value n s = Some (v, rest) →
     (length rest < length s)%nat
     ∧ ∀ m, (2 * (length s - length rest) ≤ m)%nat →
            parse_value m s = Some (v, rest))
  ∧ (∀ s acc v rest, parse_elements n s acc = Some (v, rest) →
       (length rest < length s)%nat
       ∧ ∀ m, (2 * (length s - length rest) ≤ m)%nat →
              parse_elements m s acc = Some (v, rest))
  ∧ (∀ s acc v rest, parse_members n s acc = Some (v, rest) →
       (length rest < length s)%nat
       ∧ ∀ m, (2 * (length s - length rest) ≤ m)%nat →
              parse_members m s acc = Some (v, rest)).
Proof.
  induction n as [|n (IHv & IHe & IHm)]; [done|]. split_and!.
  - intros s v rest H. rewrite parse_value_S in H.
    pose proof (skip_ws_length s) as Hs.
    destruct (skip_ws s) as [|c r] eqn:Hws; [done|]. simpl in Hs.
    destruct (c =? 123) eqn:H123.
    { pose proof (skip_ws_length r) as Hr.
      destruct (skip_ws r) as [|c' r'] eqn:Hws'; [done|]. simpl in Hr.
      destruct (c' =? 125) eqn:H125.
      - injection H as <- <-. split; [lia|]. intros [|m] Hm; [lia|].
        by rewrite parse_value_S, Hws, H123, Hws', H125.
      - apply IHm in H as [Hlen Hfuel]. split; [lia|]. intros [|m] Hm; [lia|].
        rewrite parse_value_S, Hws, H123, Hws', H125. apply Hfuel. lia. }
    destruct (c =? 91) eqn:H91.
    { pose proof (skip_ws_length r) as Hr.
      destruct (skip_ws r) as [|c' r'] eqn:Hws'; [done|]. simpl in Hr.
      destruct (c' =? 93) eqn:H93.
      - injection H as <- <-. split; [lia|]. intros [|m] Hm; [lia|].
        by rewrite parse_value_S, Hws, H123, H91, Hws', H93.
      - apply IHe in H as [Hlen Hfuel]. split; [lia|]. intros [|m] Hm; [lia|].
        rewrite parse_value_S, Hws, H123, H91, Hws', H93. apply Hfuel. lia. }
    assert (length rest < length (c :: r))%nat as Hlen.
    { destruct (c =? 34).
      { destruct (parse_string_body r) as [[str rest']|] eqn:Hstr; [|done].
        apply parse_string_body_length in Hstr.
        injection H as _ <-. simpl. lia. }
      destruct (c =? 116).
      { destruct (strip_prefix _ _) as [rest'|] eqn:Hlit; [|done].
        apply strip_prefix_length in Hlit. injection H as _ <-.
        change (length (js "true")) with 4%nat in Hlit. lia. }
      destruct (c =? 102).
      { destruct (strip_prefix _ _) as [rest'|] eqn:Hlit; [|done].
        apply strip_prefix_length in Hlit. injection H as _ <-.
        change (length (js "false")) with 5%nat in Hlit. lia. }
      destruct (c =? 110).
      { destruct (strip_prefix _ _) as [rest'|] eqn:Hlit; [|done].
        apply strip_prefix_length in Hlit. injection H as _ <-.
        change (length (js "null")) with 4%nat in Hlit. lia. }
      by apply parse_number_length in H. }
    simpl in Hlen. split; [lia|]. intros [|m] Hm; [lia|].
    by rewrite parse_value_S, Hws, H123, H91.
  - intros s acc v rest H. rewrite parse_elements_S in H.
    destruct (parse_value n s) as [[v1 r1]|] eqn:Hv; [|done].
    apply IHv in Hv as [Hlen1 Hfuel1].
    pose proof (skip_ws_length r1) as Hr1.
    destruct (skip_ws r1) as [|c r'] eqn:Hws; [done|]. simpl in Hr1.
    destruct (c =? 44) eqn:H44.
    + apply IHe in H as [Hlen Hfuel]. split; [lia|]. intros [|m] Hm; [lia|].
      rewrite parse_elements_S, Hfuel1, Hws, H44 by lia. apply Hfuel. lia.
    + destruct (c =? 93) eqn:H93; [|done]. injection H as <- <-.
      split; [lia|]. intros [|m] Hm; [lia|].
      by rewrite parse_elements_S, Hfuel1, Hws, H44, H93 by lia.
  - intros s acc v rest H. rewrite parse_members_S in H.
    pose proof (skip_ws_length s) as Hs.
    destruct (skip_ws s) as [|c r] eqn:Hws; [done|]. simpl in Hs.
    destruct (c =? 34) eqn:H34; [|done].
    destruct (parse_string_body r) as [[k r1]|] eqn:Hk; [|done].
    pose proof (parse_string_body_length _ _ _ Hk) as Hklen.
    pose proof (skip_ws_length r1) as Hr1.
    destruct (skip_ws r1) as [|c1 r2] eqn:Hws1; [done|]. simpl in Hr1.
    destruct (c1 =? 58) eqn:H58; [|done].
    destruct (parse_value n r2) as [[v1 r3]|] eqn:Hv; [|done].
    apply IHv in Hv as [Hlen1 Hfuel1].
    pose proof (skip_ws_length r3) as Hr3.
    destruct (skip_ws r3) as [|c3 r4] eqn:Hws3; [done|]. simpl in Hr3.
    destruct (c3 =? 44) eqn:H44.
    + apply IHm in H as [Hlen Hfuel]. split; [lia|]. intros [|m] Hm; [lia|].
      rewrite parse_members_S, Hws, H34, Hk, Hws1, H58, Hfuel1, Hws3, H44
        by lia.
      apply Hfuel. lia.
    + destruct (c3 =? 125) eqn:H125; [|done]. injection H as <- <-.
      split; [lia|]. intros [|m] Hm; [lia|].
      by rewrite parse_members_S, Hws, H34, Hk, Hws1, H58, Hfuel1, Hws3, H44,
        H125 by lia.
Qed.

(** The fuel [JSON.parse] starts with is enough: no larger fuel finds a
    value where it finds none, or another value. *)
Lemma JSON_parse_fuel_enough (text : jsstring) (n : nat) v rest :
  parse_value n text = Some (v, rest) →
  parse_value (2 * length text + 2) text = Some (v, rest).
Proof.
  intros H. destruct (parse_fuel_adequate n) as (Hv & _ & _).
  apply Hv in H as [_ Hfuel]. apply Hfuel. lia.
Qed.

End JsonFuel.


(** ** [JSON.parse] on the reply the schema asks for *)

Section JsonReply.

Import JSON.

Lemma hex4_of_control (c : N) :
  c < 32 → hex4 48 48 (hex_digit (c / 16)) (hex_digit (c mod 16)) = Some c.
Proof.
  intros Hc.
  destruct c as [|p]; [reflexivity|].
  do 5 (destruct p as [p|p|]; try reflexivity); lia.
Qed.

(** Reading back the body of a quoted string. *)
Lemma parse_string_body_escaped (s rest : jsstring) :
  parse_string_body (flat_map escape s ++ 34 :: rest) = Some (s, rest).
Proof.
  induction s as [|c s IH]; [reflexivity|].
  change (flat_map escape (c :: s)) with (escape c ++ flat_map escape s).
  rewrite <- app_assoc.
  destruct (c =? 34) eqn:Hq.
  { replace (escape c) with [92; 34] by (unfold escape; by rewrite Hq).
    simpl. by rewrite IH, (proj1 (N.eqb_eq _ _) Hq). }
  destruct (c =? 92) eqn:Hb.
  { replace (escape c) with [92; 92] by (unfold escape; by rewrite Hq, Hb).
    simpl. by rewrite IH, (proj1 (N.eqb_eq _ _) Hb). }
  destruct (c <? 32) eqn:Hc.
  - replace (escape c)
      with [92; 117; 48; 48; hex_digit (c / 16); hex_digit (c mod 16)]
      by (unfold escape; by rewrite Hq, Hb, Hc).
    apply N.ltb_lt in Hc.
    change (parse_string_body
              ([92; 117; 48; 48; hex_digit (c / 16); hex_digit (c mod 16)]
                 ++ flat_map escape s ++ 34 :: rest))
      with (match hex4 48 48 (hex_digit (c / 16)) (hex_digit (c mod 16)),
                  parse_string_body (flat_map escape s ++ 34 :: rest) with
            | Some u, Some (t, rest') => Some (u :: t, rest')
            | _, _ => None
            end).
    by rewrite (hex4_of_control c Hc), IH.
  - replace (escape c) with [c] by (unfold escape; by rewrite Hq, Hb, Hc).
    simpl. by rewrite Hq, Hb, Hc, IH.
Qed.

Lemma quote_app (s rest : jsstring) :
  quote s ++ rest = 34 :: flat_map escape s ++ 34 :: rest.
Proof. unfold quote. simpl. by rewrite <- app_assoc. Qed.

Lemma parse_value_quoted fuel (s rest : jsstring) :
  parse_value (S fuel) (quote s ++ rest) = Some (JString s, rest).
Proof. rewrite quote_app. simpl. by rewrite parse_string_body_escaped. Qed.

(** One member with a string value, followed by a comma or by the closing
    brace. *)
Lemma parse_members_string fuel (k v more : jsstring) (sep : N) acc :
  parse_members (S (S fuel)) (quote k ++ 58 :: quote v ++ sep :: more) acc
  = if sep =? 44 then
      parse_members (S fuel) more (define_property k (JString v) acc)
    else if sep =? 125 then
      Some (JObject (define_property k (JString v) acc), more)
    else if is_ws sep then
      match skip_ws more with
      | c3 :: r4 =>
        if c3 =? 44 then
          parse_members (S fuel) r4 (define_property k (JString v) acc)
        else if c3 =? 125 then
          Some (JObject (define_property k (JString v) acc), r4)
        else None
      | [] => None
      end
    else None.
Proof.
  rewrite quote_app.
  change (parse_members (S (S fuel))
            (34 :: flat_map escape k ++ 34 :: 58 :: quote v ++ sep :: more) acc)
    with (match parse_string_body
                  (flat_map escape k ++ 34 :: 58 :: quote v ++ sep :: more) with
          | None => None
          | Some (k, r1) =>
            match skip_ws r1 with
            | c1 :: r2 =>
              if c1 =? 58 then
                match parse_value (S fuel) r2 with
                | None => None
                | Some (v, r3) =>
                  match skip_ws r3 with
                  | c3 :: r4 =>
                    if c3 =? 44 then
                      parse_members (S fuel) r4 (define_property k v acc)
                    else if c3 =? 125 then
                      Some (JObject (define_property k v acc), r4)
                    else None
                  | [] => None
                  end
                end
              else None
            | [] => None
            end
          end).
  rewrite parse_string_body_escaped.
  change (skip_ws (58 :: quote v ++ sep :: more))
    with (58 :: quote v ++ sep :: more).
  change (58 =? 58) with true. cbv iota.
  rewrite parse_value_quoted.
  change (skip_ws (sep :: more))
    with (if is_ws sep then skip_ws more else sep :: more).
  destruct (sep =? 44) eqn:H44.
  { apply N.eqb_eq in H44 as ->. reflexivity. }
  destruct (sep =? 125) eqn:H125.
  { apply N.eqb_eq in H125 as ->. reflexivity. }
  destruct (is_ws sep); [reflexivity|]. by rewrite H44, H125.
Qed.

(** A reply text with the three fields parses to the object with these
    fields, whatever the three strings are. *)
Lemma JSON_parse_well_formed_reply (a b c : jsstring) :
  JSON.parse (geminiService.well_formed_reply a b c)
  = Some (geminiService.reply_object a b c).
Proof.
  unfold JSON.parse.
  assert (∃ fuel, 2 * length (geminiService.well_formed_reply a b c) + 2
                  = S (S (S (S (S fuel)))))%nat as [fuel ->].
  { unfold geminiService.well_formed_reply.
    exists (2 * length (JSON.quote (js "illnessTitle") ++ js ":"
                   ++ JSON.quote a ++ js ","
                   ++ JSON.quote (js "prescriptionContent") ++ js ":"
                   ++ JSON.quote b ++ js ","
                   ++ JSON.quote (js "advice") ++ js ":"
                   ++ JSON.quote c ++ js "}") - 1)%nat.
    rewrite (length_app (js "{")).
    change (length (js "{")) with 1%nat.
    rewrite (length_app (quote (js "illnessTitle"))).
    change (length (quote (js "illnessTitle"))) with 14%nat. lia. }
  unfold geminiService.well_formed_reply.
  change (js "{") with [123]. change (js ":") with [58].
  change (js ",") with [44]. change (js "}") with [125].
  change (parse_value (S (S (S (S (S fuel)))))
            ([123] ++ quote (js "illnessTitle") ++ [58] ++ quote a ++ [44]
               ++ quote (js "prescriptionContent") ++ [58] ++ quote b ++ [44]
               ++ quote (js "advice") ++ [58] ++ quote c ++ [125]))
    with (parse_members (S (S (S (S fuel))))
            (quote (js "illnessTitle") ++ 58 :: quote a ++ 44
               :: quote (js "prescriptionContent") ++ 58 :: quote b ++ 44
               :: quote (js "advice") ++ 58 :: quote c ++ 125 :: []) []).
  rewrite !parse_members_string. reflexivity.
Qed.

End JsonReply.

(** ** Submission: [handleSubmit] *)

Section Submission.

Variable readAsDataURL : File → option jsstring.
Variable generateContent : Request → ServiceOutcome.

Implicit Types (s : AppState) (file : File).

Lemma fileToPart_unfold file :
  fileToPart readAsDataURL file
  = ([ReadAsDataURL file],
     match readAsDataURL file with
     | Some result =>
       Returns {| mimeType := file_type file;
                  data := split_on 44 result !! 1%nat |}
     | None => Throws FileReaderErrorEvent
     end).
Proof. unfold fileToPart. by destruct (readAsDataURL file). Qed.

Lemma Promise_all_cons {A} (p : Async A) (rest : list (Async A)) :
  Promise_all (p :: rest)
  = (p.1 ++ (Promise_all rest).1,
     match p.2, (Promise_all rest).2 with
     | Throws err, _ => Throws err
     | Returns _, Throws err => Throws err
     | Returns a, Returns l => Returns (a :: l)
     end).
Proof. destruct p as [log c]. simpl. by destruct (Promise_all rest). Qed.

Lemma Promise_all_fileToPart_log (l : list File) :
  (Promise_all (fileToPart readAsDataURL <$> l)).1 = ReadAsDataURL <$> l.
Proof.
  induction l as [|file l IH]; [done|].
  rewrite !fmap_cons, Promise_all_cons, fileToPart_unfold. simpl.
  by rewrite IH.
Qed.

Lemma Promise_all_fileToPart_readable (l : list File) :
  Forall (readable readAsDataURL) l →
  ∃ parts, (Promise_all (fileToPart readAsDataURL <$> l)).2 = Returns parts
           ∧ Forall2 (encodes readAsDataURL) l parts.
Proof.
  induction 1 as [|file l [result Hfile] _ (parts & Hparts & Henc)].
  - by exists [].
  - eexists (_ :: parts).
    rewrite fmap_cons, Promise_all_cons, fileToPart_unfold, Hparts.
    simpl. rewrite Hfile.
    split; [reflexivity|]. constructor; [|done]. by exists result.
Qed.

Lemma Promise_all_fileToPart_unreadable (l : list File) :
  Exists (λ file, readAsDataURL file = None) l →
  (Promise_all (fileToPart readAsDataURL <$> l)).2
  = Throws FileReaderErrorEvent.
Proof.
  induction 1 as [file l Hfile|file l _ IH];
    rewrite fmap_cons, Promise_all_cons, fileToPart_unfold; simpl.
  - by rewrite Hfile.
  - rewrite IH. by destruct (readAsDataURL file).
Qed.

(** [generatePrescription] sends one request; it returns what
    [JSON.parse] makes of the reply, and throws the one generic [Error]
    for a failed call and for a reply that does not parse. *)
Lemma generatePrescription_unfold patientInfo illnessDescription
    selectedTreatments (fileParts : list FilePart) :
  geminiService.generatePrescription generateContent
    patientInfo illnessDescription selectedTreatments fileParts
  = let req := geminiService.request
                 patientInfo illnessDescription selectedTreatments fileParts in
    match generateContent req with
    | ServiceResponds response_text =>
      match JSON.parse (default (js "undefined") response_text) with
      | Some v => ([GenerateContent req], Returns v)
      | None =>
        ([GenerateContent req; ConsoleError],
         Throws (ErrorObject geminiService.failure_message))
      end
    | ServiceFails _ =>
      ([GenerateContent req; ConsoleError],
       Throws (ErrorObject geminiService.failure_message))
    end.
Proof.
  unfold geminiService.generatePrescription, geminiService.parse_response.
  simpl. destruct (generateContent _) as [err|response_text]; [done|].
  by destruct (JSON.parse _).
Qed.

(** A submission that passes the check, with every file readable: the
    files are read in order, then the request goes out with the encoded
    files. *)
Lemma handleSubmit_readable s :
  validation_fails s = false →
  Forall (readable readAsDataURL) (uploadedFiles s) →
  ∃ parts log outcome,
    Forall2 (encodes readAsDataURL) (uploadedFiles s) parts
    ∧ geminiService.generatePrescription generateContent (patientInfo s)
        (descriptionForApi s) (selectedTreatments s) parts = (log, outcome)
    ∧ handleSubmit readAsDataURL generateContent s
      = ((ReadAsDataURL <$> uploadedFiles s) ++ log,
         settle outcome (submitting s)).
Proof.
  intros Hvalid Hread. unfold handleSubmit, submit_body. rewrite Hvalid.
  destruct (Promise_all_fileToPart_readable _ Hread) as (parts & Hparts & Henc).
  pose proof (Promise_all_fileToPart_log (uploadedFiles s)) as Hlog.
  destruct (Promise_all _) as [log0 c0]. simpl in Hparts, Hlog. subst.
  destruct (geminiService.generatePrescription generateContent (patientInfo s)
              (descriptionForApi s) (selectedTreatments s) parts)
    as [log outcome] eqn:Hgen.
  exists parts, log, outcome. split; [done|]. split; [done|].
  unfold mbind, Async_bind. by rewrite Hgen.
Qed.

(** A submission that passes the check, with a file that cannot be read:
    all the reads are attempted, no request goes out, and the value the
    [catch] receives is the reader's error event. *)
Lemma handleSubmit_unreadable s :
  validation_fails s = false →
  Exists (λ file, readAsDataURL file = None) (uploadedFiles s) →
  handleSubmit readAsDataURL generateContent s
  = (ReadAsDataURL <$> uploadedFiles s,
     settle (Throws FileReaderErrorEvent) (submitting s)).
Proof.
  intros Hvalid Hbad. unfold handleSubmit, submit_body. rewrite Hvalid.
  pose proof (Promise_all_fileToPart_unreadable _ Hbad) as Hthrow.
  pose proof (Promise_all_fileToPart_log (uploadedFiles s)) as Hlog.
  destruct (Promise_all _) as [log0 c0]. simpl in Hthrow, Hlog. by subst.
Qed.

(** So an unreadable file ends the submission without any message: the
    error is [undefined], the alert box is not shown, and the form is back
    in [Editing]. *)
Lemma handleSubmit_unreadable_shows_nothing s :
  validation_fails s = false →
  Exists (λ file, readAsDataURL file = None) (uploadedFiles s) →
  error (handleSubmit readAsDataURL generateContent s).2 = err_undefined
  ∧ shown_error (error (handleSubmit readAsDataURL generateContent s).2) = None
  ∧ phase (handleSubmit readAsDataURL generateContent s).2 = Editing
  ∧ (∀ req, GenerateContent req
              ∉ (handleSubmit readAsDataURL generateContent s).1).
Proof.
  intros Hvalid Hbad. rewrite (handleSubmit_unreadable s Hvalid Hbad).
  split_and!; try done.
  intros req (file & Heq & _)%list_elem_of_fmap. discriminate.
Qed.

(** Whatever happens, [handleSubmit] leaves what the user entered as it
    was. *)
Lemma handleSubmit_keeps_form_data s :
  form_data (handleSubmit readAsDataURL generateContent s).2 = form_data s.
Proof.
  unfold handleSubmit. destruct (validation_fails s); [done|].
  destruct (submit_body _ _ s) as [log [v|err]]; done.
Qed.

Lemma validation_fails_incomplete s :
  name (patientInfo s) = [] ∨ age (patientInfo s) = []
  ∨ district (patientInfo s) = [] ∨ religion (patientInfo s) = []
  ∨ language (patientInfo s) = []
  ∨ selectedTreatments s = []
  ∨ (activeTab s = TabText ∧ symptomDescription s = [])
  ∨ (activeTab s = TabUpload ∧ uploadedFiles s = []) →
  validation_fails s = true.
Proof.
  unfold validation_fails, isInputMissing.
  intros [H|[H|[H|[H|[H|[H|[[H1 H2]|[H1 H2]]]]]]]];
    rewrite ?H, ?H1, ?H2; simpl; by rewrite ?orb_true_r.
Qed.

(** C2.  When a required patient field (name, age, district, religion,
    language) is empty, or no treatment is selected, or the input of the
    active tab is missing (empty symptom text on the text tab, no accepted
    file on the upload tab), [handleSubmit] performs no effect at all, so
    no file is read and no request is sent; it stores the validation
    message as the error, which the form shows, and changes nothing
    else. *)
Theorem handleSubmit_rejects_an_incomplete_form s :
  name (patientInfo s) = [] ∨ age (patientInfo s) = []
  ∨ district (patientInfo s) = [] ∨ religion (patientInfo s) = []
  ∨ language (patientInfo s) = []
  ∨ selectedTreatments s = []
  ∨ (activeTab s = TabText ∧ symptomDescription s = [])
  ∨ (activeTab s = TabUpload ∧ uploadedFiles s = []) →
  (handleSubmit readAsDataURL generateContent s).1 = []
  ∧ (handleSubmit readAsDataURL generateContent s).2
    = setError (err_string validation_message) s
  ∧ shown_error (error (handleSubmit readAsDataURL generateContent s).2)
    = Some validation_message.
Proof.
  intros H. unfold handleSubmit.
  by rewrite (validation_fails_incomplete s H).
Qed.


(** What the [catch] and [finally] of [handleSubmit] leave behind. *)
Lemma settle_failure (err : JsThrown) (st : AppState) :
  error (settle (Throws err) st) = error_of_message (message_of err)
  ∧ isLoading (settle (Throws err) st) = false
  ∧ prescription (settle (Throws err) st) = prescription st
  ∧ form_data (settle (Throws err) st) = form_data st.
Proof. done. Qed.

(** A failed service call, with every file readable: the generic message
    is shown, and what the user entered stays. *)
Lemma handleSubmit_service_failure s :
  validation_fails s = false →
  Forall (readable readAsDataURL) (uploadedFiles s) →
  (∀ req, ∃ err, generateContent req = ServiceFails err) →
  error (handleSubmit readAsDataURL generateContent s).2
  = err_string geminiService.failure_message
  ∧ phase (handleSubmit readAsDataURL generateContent s).2 = Error
  ∧ form_data (handleSubmit readAsDataURL generateContent s).2 = form_data s.
Proof.
  intros Hvalid Hread Hfail.
  destruct (handleSubmit_readable s Hvalid Hread)
    as (parts & log & outcome & _ & Hgen & ->).
  rewrite generatePrescription_unfold in Hgen. simpl in Hgen.
  destruct (Hfail (geminiService.request (patientInfo s) (descriptionForApi s)
                     (selectedTreatments s) parts)) as [err Herr].
  rewrite Herr in Hgen. by injection Hgen as <- <-.
Qed.

(** C1, as the code has it.  For a submission that passes the check, with
    every file readable, whose request the service answers with the text
    [reply]: when [reply] is valid JSON, the parsed value becomes the
    prescription as it is, so every property of the reply is read back
    unchanged, the error is [null], and no property is checked for being
    present or a non-empty string; when [reply] is not valid JSON, the
    generic failure message is stored as the error and shown, and the
    prescription stays [null].  In particular the reply with exactly the
    three fields gives a result with these three strings, verbatim. *)
Theorem reply_is_parsed_and_stored_unchecked s (reply : jsstring) :
  validation_fails s = false →
  Forall (readable readAsDataURL) (uploadedFiles s) →
  (∀ req, GenerateContent req
            ∈ (handleSubmit readAsDataURL generateContent s).1 →
          generateContent req = ServiceResponds (Some reply)) →
  match JSON.parse reply with
  | Some v =>
    prescription (handleSubmit readAsDataURL generateContent s).2 = v
    ∧ (∀ key, get_property
                (prescription (handleSubmit readAsDataURL generateContent s).2)
                key
              = get_property v key)
    ∧ error (handleSubmit readAsDataURL generateContent s).2 = err_null
    ∧ isLoading (handleSubmit readAsDataURL generateContent s).2 = false
  | None =>
    prescription (handleSubmit readAsDataURL generateContent s).2 = JNull
    ∧ error (handleSubmit readAsDataURL generateContent s).2
      = err_string geminiService.failure_message
    ∧ phase (handleSubmit readAsDataURL generateContent s).2 = Error
  end
  ∧ (∀ illnessTitle prescriptionContent advice,
       reply = geminiService.well_formed_reply
                 illnessTitle prescriptionContent advice →
       get_property
         (prescription (handleSubmit readAsDataURL generateContent s).2)
         (js "illnessTitle") = Some (JString illnessTitle)
       ∧ get_property
           (prescription (handleSubmit readAsDataURL generateContent s).2)
           (js "prescriptionContent") = Some (JString prescriptionContent)
       ∧ get_property
           (prescription (handleSubmit readAsDataURL generateContent s).2)
           (js "advice") = Some (JString advice)
       ∧ error (handleSubmit readAsDataURL generateContent s).2 = err_null
       ∧ phase (handleSubmit readAsDataURL generateContent s).2 = Result).
Proof.
  intros Hvalid Hread Hreply.
  destruct (handleSubmit_readable s Hvalid Hread)
    as (parts & log & outcome & _ & Hgen & Hsubmit).
  rewrite Hsubmit in Hreply |- *.
  rewrite generatePrescription_unfold in Hgen. simpl in Hgen.
  rewrite (Hreply (geminiService.request (patientInfo s) (descriptionForApi s)
                     (selectedTreatments s) parts)) in Hgen.
  - simpl in Hgen. split.
    + destruct (JSON.parse reply) as [v|]; by injection Hgen as <- <-.
    + intros a b c ->. rewrite JSON_parse_well_formed_reply in Hgen.
      by injection Hgen as <- <-.
  - simpl. apply elem_of_app. right.
    destruct (generateContent _) as [err|response_text];
      [|destruct (JSON.parse _)]; injection Hgen as <- _; by left.
Qed.

End Submission.

(** ** Reachable states *)

Section Reachability.

Lemma NoDup_JsSet_delete (x : jsstring) (set : list jsstring) :
  NoDup set → NoDup (JsSet.delete x set).
Proof. apply NoDup_filter. Qed.

Lemma NoDup_JsSet_add (x : jsstring) (set : list jsstring) :
  NoDup set → NoDup (JsSet.add x set).
Proof.
  intros Hset. unfold JsSet.add, JsSet.has. case_bool_decide as Hin; [done|].
  apply NoDup_app. split_and!; [done| |apply NoDup_singleton].
  by intros y Hy ->%list_elem_of_singleton.
Qed.

(** In every state the component can reach: the accepted files all passed
    the check of [handleFiles], the selection has no label twice (it is a
    set), and while a submission is in flight no prescription is set. *)
Lemma reachable_invariant s :
  reachable s →
  Forall valid_file (uploadedFiles s)
  ∧ NoDup (selectedTreatments s)
  ∧ (isLoading s = true → prescription s = JNull).
Proof.
  induction 1 as [|s e _ (Hfiles & Hsel & Hload)].
  { split_and!; [constructor|constructor|done]. }
  assert (∀ files st, Forall valid_file (uploadedFiles st) →
            Forall valid_file (uploadedFiles (handleFiles files st))) as Hadd.
  { intros [batch|] st Hst; [|done].
    rewrite handleFiles_uploadedFiles. apply Forall_app. split; [done|].
    apply Forall_forall. by intros file [? _]%list_elem_of_filter. }
  assert (∀ files st,
            selectedTreatments (handleFiles files st) = selectedTreatments st
            ∧ isLoading (handleFiles files st) = isLoading st
            ∧ prescription (handleFiles files st) = prescription st) as Hfrm.
  { intros [batch|] st; [|done]. unfold handleFiles. simpl. by case_decide. }
  destruct e as [target_name target_value|value|value|treatment|tab
                |batch|batch| | |fileName|readAsDataURL generateContent| | |
                |outcome];
    simpl.
  - (* InputChange *)
    unfold handleInputChange. split_and!; try done;
      case_decide; try done;
      destruct (ReligiousTreatments !! _) as [label|]; try done;
      destruct (truthy label); try done.
    simpl. by apply NoDup_JsSet_delete.
  - done.
  - done.
  - (* TreatmentToggle *)
    split_and!; try done. simpl. destruct (JsSet.has _ _).
    + by apply NoDup_JsSet_delete.
    + by apply NoDup_JsSet_add.
  - done.
  - (* FileChange *)
    destruct (Hfrm batch s) as (-> & -> & ->).
    split_and!; [by apply Hadd|done|done].
  - (* Drop *)
    unfold handleDrop.
    destruct (Hfrm batch (setIsDragging false s)) as (-> & -> & ->).
    split_and!; [by apply Hadd|done|done].
  - done.
  - done.
  - (* RemoveClick *)
    split_and!; try done. simpl.
    apply Forall_forall. intros file [_ Hin]%list_elem_of_filter.
    rewrite Forall_forall in Hfiles. by apply Hfiles.
  - (* Submit *)
    pose proof (handleSubmit_keeps_form_data readAsDataURL generateContent s)
      as Hform.
    unfold form_data in Hform. injection Hform as _ _ _ Hs Hf _.
    rewrite Hs, Hf. split_and!; try done.
    unfold handleSubmit. destruct (validation_fails s); [done|].
    by destruct (submit_body _ _ s) as [log [v|err]].
  - done.
  - (* Reset *)
    split_and!; [constructor|constructor|done].
  - (* SubmitBegin *)
    unfold handleSubmit_begin. by destruct (validation_fails s).
  - (* SubmitSettle *)
    by destruct outcome.
Qed.

Lemma reachable_run (events : list Event) s :
  reachable s → reachable (run events s).
Proof.
  revert s. induction events as [|e events IH]; intros s Hs; [done|].
  apply IH. by constructor.
Qed.

(** The forms of the examples are states the component reaches. *)
Lemma scenario_forms_reachable :
  reachable Scenario.text_form
  ∧ reachable Scenario.upload_form
  ∧ reachable Scenario.text_form_with_file
  ∧ reachable Scenario.nameless_form
  ∧ reachable Scenario.form_with_result.
Proof.
  assert (reachable Scenario.text_form) as Htext.
  { replace Scenario.text_form
      with (run Scenario.fill_in_text_form initial_state)
      by (vm_compute; reflexivity).
    apply reachable_run. constructor. }
  assert (reachable Scenario.upload_form) as Hupload.
  { replace Scenario.upload_form
      with (run Scenario.go_to_upload Scenario.text_form)
      by (vm_compute; reflexivity).
    by apply reachable_run. }
  split_and!; [done|done| | |].
  - replace Scenario.text_form_with_file
      with (run [TabClick TabText] Scenario.upload_form)
      by (vm_compute; reflexivity).
    by apply reachable_run.
  - replace Scenario.nameless_form
      with (run [InputChange (js "name") []] Scenario.text_form)
      by (vm_compute; reflexivity).
    by apply reachable_run.
  - replace Scenario.form_with_result
      with (run [Submit Scenario.reads_fine
                   (Scenario.replies Scenario.full_reply)]
              Scenario.upload_form)
      by (vm_compute; reflexivity).
    by apply reachable_run.
Qed.

(** On a reachable state, [handleFiles] keeps out every file of the batch
    with a media type that is not allowed or a size of at least 10 MiB. *)
Lemma handleFiles_excludes_invalid_reachable s (batch : list File) file :
  reachable s → file ∈ batch →
  ¬ allowed_media_type file ∨ 10485760 ≤ file_size file →
  file ∉ uploadedFiles (handleFiles (Some batch) s).
Proof.
  intros Hreach Hin Hbad Hacc.
  pose proof (reachable_handle s (FileChange (Some batch)) Hreach) as Hnext.
  apply reachable_invariant in Hnext as [Hvalid _].
  rewrite Forall_forall in Hvalid.
  apply Hvalid, valid_file_iff in Hacc as [Hty Hsz]. destruct Hbad; [done|lia].
Qed.

(** On a reachable state that shows a prescription, where the reset
    button is, a reset leads to [Editing]. *)
Lemma resetForm_reachable_Editing s :
  reachable s → ToBoolean (prescription s) = true →
  phase (resetForm s) = Editing.
Proof.
  intros (_ & _ & Hload)%reachable_invariant Hshown.
  unfold phase. simpl. destruct (isLoading s); [|done].
  by rewrite Hload in Hshown.
Qed.

End Reachability.

(** ** The scenarios, evaluated *)

Section Scenarios.

Import Scenario.

(** C6.  For the patient Aisha (29, Lahore, Islam, Urdu) with the
    treatments allopathy and Quran & Asma-ul-Husna, the symptom text
    [fever and cough] and no attachment, the prompt of the request
    contains the fragment for Quran & Asma-ul-Husna, which ends with the
    instruction that it must be in Urdu script when the target language is
    Urdu, and the allopathy rule with its format of medicine name, dosage
    and duration, one item per bullet point. *)
Theorem scenario_prompt_has_urdu_override_and_allopathy_format :
  occurs_in
    (js "- For " ++ dquote ++ js "Quran & Asma-ul-Husna" ++ dquote ++ js ", provide relevant Quranic verses or duas, and recommend 'tasbeeh' (recitation) of Asma-ul-Husna relevant to healing. Use bullet points. If the target language is Urdu, this MUST be in Urdu script.")
    (text (geminiService.request aisha (js "fever and cough")
             aisha_treatments []))
  ∧ occurs_in
      (js "- For **Allopathy (Specialist Doctors)**, act as a board-certified specialist for the specific condition. Prescribe a comprehensive, high-quality, and modern treatment plan. Include primary medications, any necessary supportive therapies (e.g., vitamins, antacids), and suggest relevant diagnostic tests if needed. Use the format: `Medicine Name, Dosage (e.g., 500mg, 1+1+1), Duration (e.g., 5 days)`. List each item on a new bullet point (*). Ensure the prescription is evidence-based and professional.")
      (text (geminiService.request aisha (js "fever and cough")
               aisha_treatments []))
  ∧ language aisha = js "Urdu"
  ∧ (∀ readAsDataURL generateContent,
       ∃ rest,
         (handleSubmit readAsDataURL generateContent text_form).1
         = GenerateContent
             (geminiService.request aisha (js "fever and cough")
                aisha_treatments []) :: rest).
Proof.
  rewrite request_text. split_and!.
  - apply (prompt_has_religious_fragment _ _ _ (js "Quran & Asma-ul-Husna")).
    + by_evaluation.
    + vm_compute. reflexivity.
    + vm_compute. reflexivity.
  - apply prompt_has_allopathy_rule.
  - reflexivity.
  - intros readAsDataURL generateContent.
    assert (validation_fails text_form = false) as Hvalid
        by (vm_compute; reflexivity).
    destruct (handleSubmit_readable readAsDataURL generateContent
                text_form Hvalid) as (parts & log & outcome & Henc & Hgen & ->);
      [constructor|].
    apply Forall2_nil_inv_l in Henc as ->.
    rewrite generatePrescription_unfold in Hgen. simpl in Hgen.
    destruct (generateContent _) as [err|response_text];
      [|destruct (JSON.parse _)]; injection Hgen as <- _; by eexists.
Qed.

(** C7, at a file that cannot be read.  The upload form passes the check;
    its one file is read and the read fails; [reject] receives the
    reader's error event, [err.message] is [undefined], and that is what
    [setError] stores: no message is shown and the form is back in
    [Editing], not in [Error].  No request was sent, and what the user
    entered is unchanged. *)
Theorem unreadable_file_leaves_no_error_message :
  validation_fails upload_form = false
  ∧ (handleSubmit reads_fail (replies full_reply) upload_form).1
    = [ReadAsDataURL scan]
  ∧ error (handleSubmit reads_fail (replies full_reply) upload_form).2
    = err_undefined
  ∧ shown_error
      (error (handleSubmit reads_fail (replies full_reply) upload_form).2)
    = None
  ∧ phase (handleSubmit reads_fail (replies full_reply) upload_form).2
    = Editing
  ∧ form_data (handleSubmit reads_fail (replies full_reply) upload_form).2
    = form_data upload_form.
Proof.
  assert (validation_fails upload_form = false) as Hvalid
      by (vm_compute; reflexivity).
  split; [done|].
  rewrite (handleSubmit_unreadable reads_fail (replies full_reply)
             upload_form Hvalid) by (by left).
  done.
Qed.

(** C1 as the specification words it fails on a reply that omits required
    fields: the reply with only a title is valid JSON, so it becomes the
    prescription, the result view is shown, and no error is set. *)
Lemma reply_without_required_fields_is_accepted :
  JSON.parse title_only_reply
  = Some (JObject [(js "illnessTitle", JString (js "Flu"))])
  ∧ get_property (JObject [(js "illnessTitle", JString (js "Flu"))])
      (js "prescriptionContent") = None
  ∧ get_property (JObject [(js "illnessTitle", JString (js "Flu"))])
      (js "advice") = None
  ∧ prescription
      (handleSubmit reads_fine (replies title_only_reply) text_form).2
    = JObject [(js "illnessTitle", JString (js "Flu"))]
  ∧ error (handleSubmit reads_fine (replies title_only_reply) text_form).2
    = err_null
  ∧ phase (handleSubmit reads_fine (replies title_only_reply) text_form).2
    = Result
  ∧ ¬ (phase (handleSubmit reads_fine (replies title_only_reply) text_form).2
       = Error
       ∧ prescription
           (handleSubmit reads_fine (replies title_only_reply) text_form).2
         = JNull).
Proof.
  split_and!; try (vm_compute; reflexivity).
  intros [Hphase _]. vm_compute in Hphase. discriminate.
Qed.

(** C8 as the specification words it fails on the language field: after
    a reset of a form that shows a result, it holds [English], not the
    empty string. *)
Lemma resetForm_leaves_language_English :
  prescription form_with_result ≠ JNull
  ∧ language (patientInfo (resetForm form_with_result)) = js "English"
  ∧ ¬ form_is_empty (resetForm form_with_result).
Proof.
  split_and!.
  - discriminate.
  - reflexivity.
  - intros (_ & _ & _ & _ & _ & Hlang & _). vm_compute in Hlang. discriminate.
Qed.

(** *** The theorems with a hypothesis, applied *)

Lemma reply_is_parsed_and_stored_unchecked_witness :
  validation_fails text_form = false
  ∧ Forall (readable reads_fine) (uploadedFiles text_form)
  ∧ get_property
      (prescription
         (handleSubmit reads_fine
            (replies (geminiService.well_formed_reply
                        (js "Flu") (js "## Plan") (js "## General Advice")))
            text_form).2)
      (js "illnessTitle") = Some (JString (js "Flu"))
  ∧ phase
      (handleSubmit reads_fine
         (replies (geminiService.well_formed_reply
                     (js "Flu") (js "## Plan") (js "## General Advice")))
         text_form).2
    = Result.
Proof.
  assert (validation_fails text_form = false) as Hvalid
      by (vm_compute; reflexivity).
  assert (Forall (readable reads_fine) (uploadedFiles text_form)) as Hread
      by constructor.
  split; [exact Hvalid|]. split; [exact Hread|].
  destruct (reply_is_parsed_and_stored_unchecked reads_fine
              (replies (geminiService.well_formed_reply
                          (js "Flu") (js "## Plan") (js "## General Advice")))
              text_form
              (geminiService.well_formed_reply
                 (js "Flu") (js "## Plan") (js "## General Advice"))
              Hvalid Hread (λ req _, eq_refl)) as [_ Hfields].
  destruct (Hfields (js "Flu") (js "## Plan") (js "## General Advice") eq_refl)
    as (Htitle & _ & _ & _ & Hphase).
  split; [exact Htitle|exact Hphase].
Defined.

Lemma handleSubmit_rejects_an_incomplete_form_witness :
  name (patientInfo nameless_form) = []
  ∧ (handleSubmit reads_fine (replies full_reply) nameless_form).1 = []
  ∧ (handleSubmit reads_fine (replies full_reply) nameless_form).2
    = setError (err_string validation_message) nameless_form
  ∧ shown_error
      (error (handleSubmit reads_fine (replies full_reply) nameless_form).2)
    = Some validation_message.
Proof.
  split; [reflexivity|].
  apply (handleSubmit_rejects_an_incomplete_form reads_fine
           (replies full_reply) nameless_form).
  left. reflexivity.
Defined.

Lemma handleFiles_accepts_exactly_the_valid_files_witness :
  Forall valid_file (uploadedFiles upload_form)
  ∧ ∃ appended,
      uploadedFiles
        (handleFiles (Some [report; too_large; wrong_type]) upload_form)
      = uploadedFiles upload_form ++ appended
      ∧ appended `sublist_of` [report; too_large; wrong_type]
      ∧ [report; too_large; wrong_type]
        ≡ₚ appended ++ filter (λ file, ¬ valid_file file)
                         [report; too_large; wrong_type]
      ∧ (∀ file, file ∈ [report; too_large; wrong_type] →
                 allowed_media_type file →
                 file_size file < 10485760 → file ∈ appended)
      ∧ (∀ file, file ∈ [report; too_large; wrong_type] →
                 ¬ allowed_media_type file ∨ 10485760 ≤ file_size file →
                 file ∉ uploadedFiles
                          (handleFiles (Some [report; too_large; wrong_type])
                             upload_form))
      ∧ ((∃ file, file ∈ [report; too_large; wrong_type]
                  ∧ (¬ allowed_media_type file
                     ∨ 10485760 ≤ file_size file)) →
         error (handleFiles (Some [report; too_large; wrong_type])
                  upload_form)
         = err_string invalid_files_message)
      ∧ ((∀ file, file ∈ [report; too_large; wrong_type] →
                  allowed_media_type file ∧ file_size file < 10485760) →
         error (handleFiles (Some [report; too_large; wrong_type])
                  upload_form)
         = error upload_form).
Proof.
  assert (Forall valid_file (uploadedFiles upload_form)) as Hinv.
  { apply (bool_decide_unpack _). vm_compute. exact I. }
  split; [exact Hinv|].
  exact (handleFiles_accepts_exactly_the_valid_files
           [report; too_large; wrong_type] upload_form Hinv).
Defined.

Lemma religion_change_removes_only_the_implied_label_witness :
  ReligiousTreatments !! religion (patientInfo text_form)
  = Some (js "Quran & Asma-ul-Husna")
  ∧ js "Other" ≠ religion (patientInfo text_form)
  ∧ selectedTreatments (handleInputChange (js "religion") (js "Other") text_form)
    = [js "Allopathy (Specialist Doctors)"]
  ∧ religion
      (patientInfo (handleInputChange (js "religion") (js "Other") text_form))
    = js "Other"
  ∧ (js "Quran & Asma-ul-Husna"
       ∉ selectedTreatments
           (handleInputChange (js "religion") (js "Other") text_form)).
Proof.
  assert (ReligiousTreatments !! religion (patientInfo text_form)
          = Some (js "Quran & Asma-ul-Husna")) as Hlabel
      by (vm_compute; reflexivity).
  assert (js "Other" ≠ religion (patientInfo text_form)) as Hne
      by (vm_compute; discriminate).
  split; [exact Hlabel|]. split; [exact Hne|].
  split; [vm_compute; reflexivity|].
  destruct (religion_change_removes_only_the_implied_label text_form
              (js "Other") (js "Quran & Asma-ul-Husna") Hlabel)
    as (Hrel & Hgone & _).
  split; [exact Hrel|exact Hgone].
Defined.


End Scenarios.


(** * Further properties of the component *)

(** ** The treatment check boxes: [handleTreatmentToggle] *)

Section Toggle.

Implicit Types (s : AppState) (treatment other : jsstring).

Lemma JsSet_delete_absent treatment (set : list jsstring) :
  treatment ∉ set → JsSet.delete treatment set = set.
Proof.
  intros Hnot. unfold JsSet.delete.
  induction set as [|x set IH]; [done|].
  apply not_elem_of_cons in Hnot as [Hne Hnot].
  rewrite filter_cons_True by done. by rewrite IH.
Qed.

Lemma JsSet_has_true treatment (set : list jsstring) :
  JsSet.has treatment set = true ↔ treatment ∈ set.
Proof. unfold JsSet.has. apply bool_decide_eq_true. Qed.

Lemma JsSet_has_false treatment (set : list jsstring) :
  JsSet.has treatment set = false ↔ treatment ∉ set.
Proof. unfold JsSet.has. apply bool_decide_eq_false. Qed.

(** X1.  A click on a check box flips the membership of that treatment
    and of no other: the treatment is selected afterwards exactly when it
    was not before, and every other treatment is selected exactly when it
    was; a newly selected treatment goes to the end of the selection. *)
Theorem toggle_flips_only_that_treatment treatment s :
  (treatment ∈ selectedTreatments (handleTreatmentToggle treatment s)
   ↔ treatment ∉ selectedTreatments s)
  ∧ (∀ other, other ≠ treatment →
       (other ∈ selectedTreatments (handleTreatmentToggle treatment s)
        ↔ other ∈ selectedTreatments s))
  ∧ selectedTreatments (handleTreatmentToggle treatment s)
    = (if JsSet.has treatment (selectedTreatments s)
       then filter (λ label, label ≠ treatment) (selectedTreatments s)
       else selectedTreatments s ++ [treatment])
  ∧ form_data (handleTreatmentToggle treatment s)
    = (patientInfo s, symptomDescription s, reportComments s,
       selectedTreatments (handleTreatmentToggle treatment s),
       uploadedFiles s, activeTab s).
Proof.
  unfold handleTreatmentToggle. simpl.
  destruct (JsSet.has treatment (selectedTreatments s)) eqn:Hhas.
  - apply JsSet_has_true in Hhas. unfold JsSet.delete.
    split_and!; [|intros other Hne|done|done];
      rewrite list_elem_of_filter; tauto.
  - unfold JsSet.add. rewrite Hhas. apply JsSet_has_false in Hhas.
    split_and!; [|intros other Hne|done|done];
      rewrite elem_of_app, list_elem_of_singleton; tauto.
Qed.

(** X2.  Two clicks on the same check box restore the selection as a set;
    as a list, which is the order the prompt names the treatments in, an
    unselected treatment leaves it as it was, and a selected one moves to
    the end. *)
Theorem toggle_twice_restores_the_set treatment s :
  (∀ other,
     other ∈ selectedTreatments
               (handleTreatmentToggle treatment
                  (handleTreatmentToggle treatment s))
     ↔ other ∈ selectedTreatments s)
  ∧ selectedTreatments
      (handleTreatmentToggle treatment (handleTreatmentToggle treatment s))
    = (if JsSet.has treatment (selectedTreatments s)
       then JsSet.delete treatment (selectedTreatments s) ++ [treatment]
       else selectedTreatments s).
Proof.
  unfold handleTreatmentToggle. simpl.
  destruct (JsSet.has treatment (selectedTreatments s)) eqn:Hhas.
  - assert (JsSet.has treatment (JsSet.delete treatment (selectedTreatments s))
            = false) as Hgone.
    { apply JsSet_has_false. unfold JsSet.delete.
      rewrite list_elem_of_filter. tauto. }
    rewrite Hgone. unfold JsSet.add. rewrite Hgone. split; [|done].
    apply JsSet_has_true in Hhas. intros other. unfold JsSet.delete.
    rewrite elem_of_app, list_elem_of_filter, list_elem_of_singleton.
    destruct (decide (other = treatment)) as [->|]; tauto.
  - assert (JsSet.add treatment (selectedTreatments s)
            = selectedTreatments s ++ [treatment]) as Hadd
        by (unfold JsSet.add; by rewrite Hhas).
    assert (JsSet.has treatment (selectedTreatments s ++ [treatment]) = true)
      as Hthere.
    { apply JsSet_has_true, elem_of_app. right. by apply list_elem_of_singleton. }
    rewrite !Hadd, !Hthere.
    assert (JsSet.delete treatment (selectedTreatments s ++ [treatment])
            = selectedTreatments s) as ->; [|done].
    apply JsSet_has_false in Hhas.
    unfold JsSet.delete. rewrite filter_app, filter_cons_False by tauto.
    rewrite filter_nil, app_nil_r. by apply JsSet_delete_absent.
Qed.

End Toggle.

(** ** The accepted files: [handleFiles], [removeFile], [fileToPart] *)

Section MoreAttachments.

Implicit Types (s : AppState) (file : File) (fileName : jsstring).

Lemma Forall_valid_app (b1 b2 : list File) :
  Forall valid_file (b1 ++ b2) ↔ Forall valid_file b1 ∧ Forall valid_file b2.
Proof. apply Forall_app. Qed.

(** X3.  Choosing two batches of files one after the other leaves the
    component in the state that choosing them as one batch does: the same
    accepted files in the same order, and the warning if either batch had a
    file that was left out. *)
Theorem handleFiles_batches_compose (batch1 batch2 : list File) s :
  handleFiles (Some batch2) (handleFiles (Some batch1) s)
  = handleFiles (Some (batch1 ++ batch2)) s.
Proof.
  assert (∀ batch st,
            handleFiles (Some batch) st
            = setUploadedFiles (uploadedFiles st ++ filter valid_file batch)
                (if decide (Forall valid_file batch) then st
                 else setError (err_string invalid_files_message) st))
    as Hunfold.
  { intros batch st. unfold handleFiles.
    destruct (decide (Forall valid_file batch)) as [Hall|Hnot].
    - rewrite decide_False; [done|]. intros Hne. apply Hne. f_equal.
      clear Hne. induction Hall as [|x l Hx Hl IH]; [done|].
      by rewrite filter_cons_True, IH.
    - rewrite decide_True; [done|]. intros Hlen. apply Hnot.
      apply Forall_forall. intros x Hx.
      destruct (decide (valid_file x)) as [|Hbad]; [done|].
      pose proof (length_filter_lt valid_file batch x Hx Hbad). lia. }
  rewrite !Hunfold, filter_app.
  destruct (decide (Forall valid_file batch1)) as [H1|H1],
           (decide (Forall valid_file batch2)) as [H2|H2],
           (decide (Forall valid_file (batch1 ++ batch2))) as [H12|H12];
    try (exfalso; rewrite Forall_valid_app in H12; tauto);
    unfold setUploadedFiles, setError; simpl; by rewrite app_assoc.
Qed.

(** X4.  Removing by name is idempotent, removals of two names commute,
    and a name that no accepted file has removes nothing. *)
Theorem removeFile_idempotent_and_commutes (a b : jsstring) s :
  removeFile a (removeFile a s) = removeFile a s
  ∧ removeFile a (removeFile b s) = removeFile b (removeFile a s)
  ∧ (if bool_decide (a ∈ file_name <$> uploadedFiles s) then True
     else removeFile a s = s).
Proof.
  unfold removeFile, setUploadedFiles. simpl. split_and!.
  - f_equal. by apply list_filter_filter_l.
  - f_equal. rewrite !list_filter_filter. apply list_filter_iff. tauto.
  - case_bool_decide as Hin; [done|]. destruct s as [? ? ? ? ? ? ? ? files ?].
    simpl in *. f_equal.
    induction files as [|file files IH]; [done|].
    rewrite fmap_cons in Hin. apply not_elem_of_cons in Hin as [Hne Hin].
    rewrite filter_cons_True by done. by rewrite IH.
Qed.

(** X5.  Accepting one valid file whose name no accepted file has, and
    then removing that name, gives back the accepted files as they were. *)
Theorem accept_then_remove_restores file s :
  valid_file file →
  (∀ other, other ∈ uploadedFiles s → file_name other ≠ file_name file) →
  uploadedFiles (removeFile (file_name file) (handleFiles (Some [file]) s))
  = uploadedFiles s.
Proof.
  intros Hvalid Hfresh. unfold removeFile, handleFiles. simpl.
  rewrite filter_cons_True, filter_nil by done.
  rewrite decide_False by (simpl; lia). simpl.
  rewrite filter_app, filter_cons_False, filter_nil, app_nil_r by tauto.
  induction (uploadedFiles s) as [|other files IH]; [done|].
  rewrite filter_cons_True by (apply Hfresh; by left).
  f_equal. apply IH. intros g Hg. apply Hfresh. by right.
Qed.

End MoreAttachments.

(** ** Encoding and submission *)

Section MoreSubmission.

Variable readAsDataURL : File → option jsstring.
Variable generateContent : Request → ServiceOutcome.

Implicit Types (s : AppState) (file : File).

Lemma split_on_absent (sep : N) (str : jsstring) :
  sep ∉ str → split_on sep str = [str].
Proof.
  induction str as [|c r IH]; [done|].
  intros [Hne Hr]%not_elem_of_cons. simpl.
  rewrite (proj2 (N.eqb_neq c sep)) by done. by rewrite IH.
Qed.

Lemma split_on_first (sep : N) (head tail : jsstring) :
  sep ∉ head → split_on sep (head ++ sep :: tail) = head :: split_on sep tail.
Proof.
  induction head as [|c r IH]; simpl.
  - intros _. by rewrite N.eqb_refl.
  - intros [Hne Hr]%not_elem_of_cons.
    rewrite (proj2 (N.eqb_neq c sep)) by done. by rewrite IH.
Qed.

(** X6.  For a data URL made of a header, one comma and a payload,
    [fileToPart] performs the one read and resolves to the part whose
    media type is the file's declared type and whose data is the payload,
    character for character. *)
Theorem fileToPart_takes_the_payload file (header payload : jsstring) :
  readAsDataURL file = Some (header ++ 44 :: payload) →
  44 ∉ header → 44 ∉ payload →
  fileToPart readAsDataURL file
  = ([ReadAsDataURL file],
     Returns {| mimeType := file_type file; data := Some payload |}).
Proof.
  intros Hurl Hheader Hpayload. unfold fileToPart. rewrite Hurl.
  by rewrite split_on_first, split_on_absent.
Qed.

(** X7.  A read that succeeds with a text that has no comma is not an
    error: [fileToPart] resolves, with [undefined] as the data of the
    part. *)
Theorem fileToPart_without_comma file (result : jsstring) :
  readAsDataURL file = Some result → 44 ∉ result →
  fileToPart readAsDataURL file
  = ([ReadAsDataURL file],
     Returns {| mimeType := file_type file; data := None |}).
Proof.
  intros Hurl Hnone. unfold fileToPart. rewrite Hurl.
  by rewrite split_on_absent.
Qed.

Lemma trim_start_spaces (str : jsstring) :
  Forall (λ c, is_js_space c = true) (trim_start str)
  ↔ Forall (λ c, is_js_space c = true) str.
Proof.
  induction str as [|c r IH]; [done|]. simpl.
  destruct (is_js_space c) eqn:Hc.
  - rewrite IH, Forall_cons. tauto.
  - done.
Qed.

Lemma trim_start_nil (str : jsstring) :
  trim_start str = [] ↔ Forall (λ c, is_js_space c = true) str.
Proof.
  induction str as [|c r IH]; [done|]. simpl.
  destruct (is_js_space c) eqn:Hc.
  - rewrite IH, Forall_cons. tauto.
  - split; [done|]. intros [Hsp _]%Forall_cons. congruence.
Qed.

Lemma Forall_rev_iff {A} (P : A → Prop) (l : list A) :
  Forall P (rev l) ↔ Forall P l.
Proof.
  rewrite !Forall_forall. setoid_rewrite list_elem_of_In.
  setoid_rewrite <- in_rev. done.
Qed.

(** [trim] leaves nothing exactly when every character is white space. *)
Lemma trim_nil (str : jsstring) :
  trim str = [] ↔ Forall (λ c, is_js_space c = true) str.
Proof.
  unfold trim.
  rewrite <- trim_start_spaces, <- Forall_rev_iff, <- trim_start_nil.
  split; [|by intros ->].
  intros H. apply (f_equal (@rev N)) in H. by rewrite rev_involutive in H.
Qed.

(** X8.  A submission is accepted exactly when name, age, district,
    religion and language are non-empty, at least one treatment is
    selected, and the active tab has its input: on the text tab a symptom
    text with a character that is not white space, on the upload tab at
    least one accepted file.  The cell number and the text of the other
    tab play no part. *)
Theorem submission_accepted_iff s :
  validation_fails s = false
  ↔ name (patientInfo s) ≠ [] ∧ age (patientInfo s) ≠ []
    ∧ district (patientInfo s) ≠ [] ∧ religion (patientInfo s) ≠ []
    ∧ language (patientInfo s) ≠ []
    ∧ selectedTreatments s ≠ []
    ∧ match activeTab s with
      | TabText => ∃ c, c ∈ symptomDescription s ∧ is_js_space c = false
      | TabUpload => uploadedFiles s ≠ []
      end.
Proof.
  assert (∀ str : jsstring, negb (truthy str) = false ↔ str ≠ []) as Htruthy
      by (by intros [|c r]).
  assert (bool_decide (JsSet.size (selectedTreatments s) = 0%nat) = false
          ↔ selectedTreatments s ≠ []) as Hsel.
  { unfold JsSet.size. rewrite bool_decide_eq_false.
    by rewrite length_zero_iff_nil. }
  assert (isInputMissing s = false
          ↔ match activeTab s with
            | TabText => ∃ c, c ∈ symptomDescription s ∧ is_js_space c = false
            | TabUpload => uploadedFiles s ≠ []
            end) as Hinput.
  { unfold isInputMissing. destruct (activeTab s).
    - rewrite bool_decide_eq_false, trim_nil.
      rewrite <- Exists_Forall_neg
        by (intros c; destruct (is_js_space c); auto).
      rewrite Exists_exists. by setoid_rewrite not_true_iff_false.
    - rewrite bool_decide_eq_false. by rewrite length_zero_iff_nil. }
  unfold validation_fails.
  rewrite !orb_false_iff, !Htruthy, Hsel, Hinput. tauto.
Qed.

(** X9.  A submission performs no effect at all, neither a file read nor
    a request, exactly when it is rejected: an accepted submission always
    reads a file or sends the request. *)
Theorem no_effect_iff_rejected s :
  (handleSubmit readAsDataURL generateContent s).1 = []
  ↔ validation_fails s = true.
Proof.
  unfold handleSubmit, submit_body.
  destruct (validation_fails s); [done|]. split; [|done].
  pose proof (Promise_all_fileToPart_log readAsDataURL (uploadedFiles s))
    as Hlog.
  destruct (Promise_all _) as [log0 [parts|err]] eqn:Hall; simpl in Hlog;
    subst log0.
  - unfold mbind, Async_bind.
    rewrite (generatePrescription_unfold generateContent). simpl.
    destruct (generateContent _) as [err|response_text];
      [|destruct (JSON.parse _)]; simpl;
      intros [_ Hnil]%app_eq_nil; discriminate.
  - simpl. intros Hnil. apply fmap_nil_inv in Hnil.
    rewrite Hnil in Hall. discriminate.
Qed.

(** X10.  Whatever the reader and the service do, a submission sends at
    most one request, and sends it only after every accepted file was
    read: the effects are nothing at all (a rejected submission), or the
    reads of all accepted files in order, followed by nothing, by the one
    request, or by the one request and an entry on the console. *)
Theorem handleSubmit_sends_at_most_one_request s :
  (handleSubmit readAsDataURL generateContent s).1 = []
  ∨ ∃ tail,
      (handleSubmit readAsDataURL generateContent s).1
      = (ReadAsDataURL <$> uploadedFiles s) ++ tail
      ∧ (tail = []
         ∨ ∃ req, tail = [GenerateContent req]
                  ∨ tail = [GenerateContent req; ConsoleError]).
Proof.
  unfold handleSubmit, submit_body.
  destruct (validation_fails s); [by left|right].
  pose proof (Promise_all_fileToPart_log readAsDataURL (uploadedFiles s))
    as Hlog.
  destruct (Promise_all _) as [log0 [parts|err]]; simpl in Hlog; subst log0.
  - unfold mbind, Async_bind.
    rewrite (generatePrescription_unfold generateContent). simpl.
    destruct (generateContent _) as [err|response_text];
      [|destruct (JSON.parse _)]; simpl; eexists; (split; [done|]);
      right; eexists; eauto.
  - exists []. simpl. rewrite app_nil_r. auto.
Qed.

(** X11.  Whatever the reader and the service do, a submission leaves
    what the user entered untouched; a rejected one only sets the
    validation message; an accepted one ends with the loading flag off and
    never with both a prescription and an error. *)
Theorem handleSubmit_always_settles s :
  form_data (handleSubmit readAsDataURL generateContent s).2 = form_data s
  ∧ (if validation_fails s
     then (handleSubmit readAsDataURL generateContent s).2
          = setError (err_string validation_message) s
     else isLoading (handleSubmit readAsDataURL generateContent s).2 = false
          ∧ (error (handleSubmit readAsDataURL generateContent s).2 = err_null
             ∨ prescription (handleSubmit readAsDataURL generateContent s).2
               = JNull)).
Proof.
  split; [apply handleSubmit_keeps_form_data|].
  unfold handleSubmit. destruct (validation_fails s); [done|].
  destruct (submit_body _ _ s) as [log [v|err]]; simpl; auto.
Qed.

(** X12.  [generatePrescription] always sends exactly one request, and
    what it does next is decided by the service alone.  When the call
    fails, with whatever error, and when the reply is not JSON, it logs
    once to the console and throws the one [Error] with the generic
    message, so the cause is hidden; when the reply is JSON, and only
    then, it logs nothing and returns what [JSON.parse] made of the
    reply. *)
Theorem generatePrescription_hides_the_cause patientInfo illnessDescription
    selectedTreatments (fileParts : list FilePart) :
  geminiService.generatePrescription generateContent
    patientInfo illnessDescription selectedTreatments fileParts
  = match generateContent
            (geminiService.request
               patientInfo illnessDescription selectedTreatments fileParts)
    with
    | ServiceFails _ =>
      ([GenerateContent
          (geminiService.request
             patientInfo illnessDescription selectedTreatments fileParts);
        ConsoleError],
       Throws (ErrorObject
                 (js "Failed to get a response from the AI. Please try again.")))
    | ServiceResponds response_text =>
      match JSON.parse (default (js "undefined") response_text) with
      | None =>
        ([GenerateContent
            (geminiService.request
               patientInfo illnessDescription selectedTreatments fileParts);
          ConsoleError],
         Throws (ErrorObject
                   (js "Failed to get a response from the AI. Please try again.")))
      | Some v =>
        ([GenerateContent
            (geminiService.request
               patientInfo illnessDescription selectedTreatments fileParts)],
         Returns v)
      end
    end.
Proof.
  rewrite generatePrescription_unfold. simpl.
  destruct (generateContent _) as [err|response_text]; [done|].
  by destruct (JSON.parse _).
Qed.

(** X13.  On the upload tab the symptom text, and on the text tab the
    report comments, have no influence on a submission: with any other
    text in that field the effects are the same, and so is the final
    state but for that field. *)
Theorem other_tab_text_is_ignored s (value : jsstring) :
  match activeTab s with
  | TabUpload =>
    handleSubmit readAsDataURL generateContent (setSymptomDescription value s)
    = ((handleSubmit readAsDataURL generateContent s).1,
       setSymptomDescription value
         (handleSubmit readAsDataURL generateContent s).2)
  | TabText =>
    handleSubmit readAsDataURL generateContent (setReportComments value s)
    = ((handleSubmit readAsDataURL generateContent s).1,
       setReportComments value
         (handleSubmit readAsDataURL generateContent s).2)
  end.
Proof.
  destruct (activeTab s) eqn:Htab; unfold handleSubmit.
  - assert (validation_fails (setReportComments value s) = validation_fails s)
      as -> by (unfold validation_fails, isInputMissing; simpl; by rewrite Htab).
    destruct (validation_fails s); [done|].
    assert (submit_body readAsDataURL generateContent (setReportComments value s)
            = submit_body readAsDataURL generateContent s) as ->
        by (unfold submit_body, descriptionForApi; simpl; by rewrite Htab).
    by destruct (submit_body _ _ s) as [log [v|err]].
  - assert (validation_fails (setSymptomDescription value s)
            = validation_fails s)
      as -> by (unfold validation_fails, isInputMissing; simpl; by rewrite Htab).
    destruct (validation_fails s); [done|].
    assert (submit_body readAsDataURL generateContent
              (setSymptomDescription value s)
            = submit_body readAsDataURL generateContent s) as ->
        by (unfold submit_body, descriptionForApi; simpl; by rewrite Htab).
    by destruct (submit_body _ _ s) as [log [v|err]].
Qed.

(** X14.  When an accepted file cannot be read, every accepted file is
    still read, and then the submission stops: no request is sent, no
    prescription is set, and the loading flag is off. *)
Theorem unreadable_file_stops_the_submission s :
  validation_fails s = false →
  Exists (λ file, readAsDataURL file = None) (uploadedFiles s) →
  (handleSubmit readAsDataURL generateContent s).1
  = ReadAsDataURL <$> uploadedFiles s
  ∧ prescription (handleSubmit readAsDataURL generateContent s).2 = JNull
  ∧ isLoading (handleSubmit readAsDataURL generateContent s).2 = false.
Proof.
  intros Hvalid Hbad. by rewrite (handleSubmit_unreadable _ _ s Hvalid Hbad).
Qed.

(** X15.  When the call to the service fails, with whatever error, on an
    accepted submission whose files were all read: the generic message is
    stored and shown, the component is in the error state, no prescription
    is set, and what the user entered is untouched. *)
Theorem service_failure_shows_the_generic_message s :
  validation_fails s = false →
  Forall (readable readAsDataURL) (uploadedFiles s) →
  (∀ req, ∃ err, generateContent req = ServiceFails err) →
  shown_error (error (handleSubmit readAsDataURL generateContent s).2)
  = Some (js "Failed to get a response from the AI. Please try again.")
  ∧ phase (handleSubmit readAsDataURL generateContent s).2 = Error
  ∧ prescription (handleSubmit readAsDataURL generateContent s).2 = JNull
  ∧ form_data (handleSubmit readAsDataURL generateContent s).2 = form_data s.
Proof.
  intros Hvalid Hread Hfail.
  destruct (handleSubmit_readable readAsDataURL generateContent s Hvalid Hread)
    as (parts & log & outcome & _ & Hgen & ->).
  rewrite generatePrescription_unfold in Hgen. simpl in Hgen.
  destruct (Hfail (geminiService.request (patientInfo s) (descriptionForApi s)
                     (selectedTreatments s) parts)) as [err Herr].
  rewrite Herr in Hgen. injection Hgen as <- <-.
  assert (shown_error (err_string geminiService.failure_message)
          = Some (js "Failed to get a response from the AI. Please try again."))
    as Hshown by (vm_compute; reflexivity).
  split_and!; [exact Hshown| |reflexivity|reflexivity].
  unfold phase.
  cbn [settle submitting setIsLoading setError setPrescription isLoading
       prescription error message_of error_of_message ToBoolean snd].
  by rewrite Hshown.
Qed.

End MoreSubmission.

(** ** More on the prompt *)

Section MorePrompt.

Import geminiService.

Variables (patientInfo : PatientInfo) (illnessDescription : jsstring)
          (selectedTreatments : list jsstring).

Lemma religiousTreatmentPrompts_truthy treatment fragment :
  religiousTreatmentPrompts !! treatment = Some fragment →
  truthy fragment = true.
Proof.
  intros H. apply elem_of_list_to_map_2 in H.
  repeat (apply elem_of_cons in H as [H|H];
          [by injection H as _ ->|]).
  by apply elem_of_nil in H.
Qed.

Lemma religiousRules_omap (selection : list jsstring) :
  religiousRules selection
  = omap (λ treatment, religiousTreatmentPrompts !! treatment) selection.
Proof.
  induction selection as [|treatment rest IH]; [done|].
  change (religiousRules (treatment :: rest))
    with (match (if Boolean (religiousTreatmentPrompts !! treatment)
                 then religiousTreatmentPrompts !! treatment else None) with
          | Some fragment => fragment :: religiousRules rest
          | None => religiousRules rest
          end).
  change (omap (λ t, religiousTreatmentPrompts !! t) (treatment :: rest))
    with (match religiousTreatmentPrompts !! treatment with
          | Some fragment =>
            fragment :: omap (λ t, religiousTreatmentPrompts !! t) rest
          | None => omap (λ t, religiousTreatmentPrompts !! t) rest
          end).
  rewrite IH.
  destruct (religiousTreatmentPrompts !! treatment) as [fragment|] eqn:Hf;
    [|done].
  simpl. by rewrite (religiousTreatmentPrompts_truthy _ _ Hf).
Qed.

(** X16.  For a selection made of labels the form can offer, the three
    general treatments and the labels of the religion table, the rules
    added to the prompt are the fragments of the selected treatments that
    have one, in the order of the selection: a general treatment adds
    nothing, and a label of the religion table adds its fragment, which
    starts by naming that label; so the selected treatments without a rule
    are exactly the general ones. *)
Theorem religiousRules_are_the_selected_fragments :
  (∀ treatment, treatment ∈ selectedTreatments →
     (∃ t : TreatmentType, treatment = TreatmentType_value t)
     ∨ ∃ r, ReligiousTreatments !! r = Some treatment) →
  religiousRules selectedTreatments
  = omap (λ treatment, religiousTreatmentPrompts !! treatment)
         selectedTreatments
  ∧ (∀ t : TreatmentType,
       religiousTreatmentPrompts !! TreatmentType_value t = None)
  ∧ (∀ r label,
       ReligiousTreatments !! r = Some label →
       ∃ fragment,
         religiousTreatmentPrompts !! label = Some fragment
         ∧ (js "- For " ++ dquote ++ label ++ dquote) `prefix_of` fragment)
  ∧ (∀ before t after,
       selectedTreatments = before ++ TreatmentType_value t :: after →
       religiousRules selectedTreatments
       = religiousRules before ++ religiousRules after)
  ∧ (∀ before r label after,
       ReligiousTreatments !! r = Some label →
       selectedTreatments = before ++ label :: after →
       ∃ fragment,
         religiousTreatmentPrompts !! label = Some fragment
         ∧ religiousRules selectedTreatments
           = religiousRules before ++ fragment :: religiousRules after)
  ∧ (∀ treatment,
       treatment ∈ selectedTreatments →
       religiousTreatmentPrompts !! treatment = None
       ↔ ∃ t : TreatmentType, treatment = TreatmentType_value t).
Proof.
  intros Hoffered.
  assert (∀ t : TreatmentType,
            religiousTreatmentPrompts !! TreatmentType_value t = None)
    as Hgeneral by (intros []; vm_compute; reflexivity).
  assert (∀ r label,
            ReligiousTreatments !! r = Some label →
            ∃ fragment,
              religiousTreatmentPrompts !! label = Some fragment
              ∧ (js "- For " ++ dquote ++ label ++ dquote) `prefix_of` fragment)
    as Hlabel.
  { intros r label H. apply elem_of_list_to_map_2 in H.
    exists (default [] (religiousTreatmentPrompts !! label)).
    repeat (apply elem_of_cons in H as [H|H];
            [injection H as _ ->;
             split; [vm_compute; reflexivity|by_evaluation]|]).
    by apply elem_of_nil in H. }
  split_and!; [apply religiousRules_omap|exact Hgeneral|exact Hlabel| | |].
  - intros before t after ->.
    rewrite !religiousRules_omap, omap_app.
    change (omap (λ treatment, religiousTreatmentPrompts !! treatment)
              (TreatmentType_value t :: after))
      with (match religiousTreatmentPrompts !! TreatmentType_value t with
            | Some fragment =>
              fragment
              :: omap (λ treatment, religiousTreatmentPrompts !! treatment) after
            | None =>
              omap (λ treatment, religiousTreatmentPrompts !! treatment) after
            end).
    by rewrite Hgeneral.
  - intros before r label after Hr ->.
    destruct (Hlabel r label Hr) as (fragment & Hfragment & _).
    exists fragment. split; [done|].
    rewrite !religiousRules_omap, omap_app.
    change (omap (λ treatment, religiousTreatmentPrompts !! treatment)
              (label :: after))
      with (match religiousTreatmentPrompts !! label with
            | Some fragment =>
              fragment
              :: omap (λ treatment, religiousTreatmentPrompts !! treatment) after
            | None =>
              omap (λ treatment, religiousTreatmentPrompts !! treatment) after
            end).
    by rewrite Hfragment.
  - intros treatment Hin. split.
    + intros Hnone. destruct (Hoffered treatment Hin) as [Ht|[r Hr]]; [done|].
      destruct (Hlabel r treatment Hr) as (fragment & Hfragment & _).
      by rewrite Hfragment in Hnone.
    + intros [t ->]. apply Hgeneral.
Qed.

(** X17.  Every prompt, with or without attachments, names the language
    in the primary language rule and lists name, age, district, religion
    and preferred language of the patient as entered; the cell number is
    listed when it is not empty. *)
Theorem prompt_names_the_patient hasFiles :
  occurs_in
    (js "You MUST generate the ENTIRE response in **" ++ language patientInfo ++ js "**.")
    (prompt patientInfo illnessDescription selectedTreatments hasFiles)
  ∧ occurs_in (js "- Name: " ++ name patientInfo)
      (prompt patientInfo illnessDescription selectedTreatments hasFiles)
  ∧ occurs_in (js "- Age: " ++ age patientInfo)
      (prompt patientInfo illnessDescription selectedTreatments hasFiles)
  ∧ occurs_in (js "- District: " ++ district patientInfo)
      (prompt patientInfo illnessDescription selectedTreatments hasFiles)
  ∧ occurs_in (js "- Religion: " ++ religion patientInfo)
      (prompt patientInfo illnessDescription selectedTreatments hasFiles)
  ∧ occurs_in (js "- Preferred Language: " ++ language patientInfo)
      (prompt patientInfo illnessDescription selectedTreatments hasFiles)
  ∧ match cell patientInfo with
    | [] => True
    | _ :: _ =>
      occurs_in (js "- Cell: " ++ cell patientInfo)
        (prompt patientInfo illnessDescription selectedTreatments hasFiles)
    end.
Proof.
  unfold prompt. split_and!.
  - eapply (occurs_in_join _ _ 4); [reflexivity|].
    apply occurs_in_seam; [by_evaluation|]. apply prefix_app. by_evaluation.
  - eapply (occurs_in_join _ _ 13); [reflexivity|].
    apply occurs_in_seam; [by_evaluation|done].
  - eapply (occurs_in_join _ _ 14); [reflexivity|].
    apply occurs_in_seam; [by_evaluation|done].
  - eapply (occurs_in_join _ _ 15); [reflexivity|].
    apply occurs_in_seam; [by_evaluation|done].
  - eapply (occurs_in_join _ _ 16); [reflexivity|].
    apply occurs_in_seam; [by_evaluation|done].
  - eapply (occurs_in_join _ _ 17); [reflexivity|].
    apply occurs_in_seam; [by_evaluation|done].
  - destruct (cell patientInfo) as [|c r] eqn:Hcell; [done|].
    eapply (occurs_in_join _ _ 18); [reflexivity|].
    apply occurs_in_app_r. apply occurs_in_refl.
Qed.

(** X18.  The text sent with the form is put between quotation marks
    under a heading that depends on the attachments only: [User Comments on
    Reports] when there are files, [Illness Description] when there are
    none, whichever tab the text came from. *)
Theorem prompt_quotes_the_description (hasFiles : bool) :
  occurs_in
    ((if hasFiles then js "**User Comments on Reports:**"
      else js "**Illness Description:**")
     ++ newline ++ js "      " ++ dquote ++ illnessDescription ++ dquote)
    (prompt patientInfo illnessDescription selectedTreatments hasFiles).
Proof.
  unfold prompt. eapply (occurs_in_join _ _ 20); [reflexivity|].
  apply occurs_in_app_r.
  destruct hasFiles; cbn [join]; exact (occurs_in_refl _).
Qed.

(** X19.  The formatting rules for allopathy, homeopathy and hikmat are
    in every prompt, whether these treatments are selected or not. *)
Theorem prompt_always_has_the_general_rules hasFiles :
  occurs_in
    (js "- For **Allopathy (Specialist Doctors)**, act as a board-certified specialist for the specific condition. Prescribe a comprehensive, high-quality, and modern treatment plan. Include primary medications, any necessary supportive therapies (e.g., vitamins, antacids), and suggest relevant diagnostic tests if needed. Use the format: `Medicine Name, Dosage (e.g., 500mg, 1+1+1), Duration (e.g., 5 days)`. List each item on a new bullet point (*). Ensure the prescription is evidence-based and professional.")
    (prompt patientInfo illnessDescription selectedTreatments hasFiles)
  ∧ occurs_in
      (js "- For **Homeopathy**, use this format: `Medicine Name Potency, Dosage (e.g., 5+5+5 drops), Duration (e.g., 7 days)`. New bullet point (*) per medicine. No paragraphs.")
      (prompt patientInfo illnessDescription selectedTreatments hasFiles)
  ∧ occurs_in
      (js "- For **Hikmat**, use simple bullet points with brief descriptions.")
      (prompt patientInfo illnessDescription selectedTreatments hasFiles).
Proof.
  unfold prompt. split_and!.
  - eapply (occurs_in_join _ _ 7); [reflexivity|].
    apply occurs_in_suffix. by_evaluation.
  - eapply (occurs_in_join _ _ 8); [reflexivity|].
    apply occurs_in_suffix. by_evaluation.
  - eapply (occurs_in_join _ _ 9); [reflexivity|].
    apply occurs_in_suffix. by_evaluation.
Qed.

End MorePrompt.

(** ** What holds in every state the rendered component reaches *)

Section MoreReachability.

Implicit Types (s : AppState) (e : Event).

Lemma ui_reachable_reachable s : ui_reachable s → reachable s.
Proof. induction 1; by constructor. Qed.

Lemma ui_reachable_run (events : list Event) s :
  ui_reachable s → offered_run events s → ui_reachable (run events s).
Proof.
  revert s. induction events as [|e events IH]; intros s Hs Hrun; [done|].
  destruct Hrun as [He Hrest]. apply IH; [by constructor|done].
Qed.

Lemma validation_fails_form_data s1 s2 :
  form_data s1 = form_data s2 → validation_fails s1 = validation_fails s2.
Proof.
  unfold form_data, validation_fails, isInputMissing.
  by intros [= -> -> _ -> -> ->].
Qed.

Lemma offered_treatments_religion s1 s2 :
  religion (patientInfo s1) = religion (patientInfo s2) →
  offered_treatments s1 = offered_treatments s2.
Proof. unfold offered_treatments, religiousTreatment. by intros ->. Qed.

Lemma assign_field_religion (value : jsstring) (prev : PatientInfo) :
  assign_field (js "religion") value prev
  = {| name := name prev; age := age prev; district := district prev;
       cell := cell prev; religion := value; language := language prev |}.
Proof. vm_compute. reflexivity. Qed.

Lemma assign_field_language (value : jsstring) (prev : PatientInfo) :
  assign_field (js "language") value prev
  = {| name := name prev; age := age prev; district := district prev;
       cell := cell prev; religion := religion prev; language := value |}.
Proof. vm_compute. reflexivity. Qed.

Lemma assign_field_text (target_name value : jsstring) (prev : PatientInfo) :
  target_name ∈ [js "name"; js "age"; js "district"; js "cell"] →
  religion (assign_field target_name value prev) = religion prev
  ∧ language (assign_field target_name value prev) = language prev
  ∧ target_name ≠ js "religion".
Proof.
  intros H.
  repeat (apply elem_of_cons in H as [->|H];
          [split_and!; [vm_compute; reflexivity|vm_compute; reflexivity|
                        intros Heq; vm_compute in Heq; discriminate]|]).
  by apply elem_of_nil in H.
Qed.

(** An event that leaves patient, selection and prescription alone, on a
    state that shows the form. *)
Lemma well_formed_form_frame s s' :
  patientInfo s' = patientInfo s →
  selectedTreatments s' = selectedTreatments s →
  prescription s' = prescription s →
  form_shown s = true →
  well_formed_form s → well_formed_form s'.
Proof.
  intros Hp Hs Hr Hshown (Hsel & Hrel & Hlang & _).
  unfold well_formed_form, form_shown in *. rewrite Hp, Hs, Hr.
  rewrite (offered_treatments_religion s' s) by (by rewrite Hp).
  split_and!; try done. intros Hf. congruence.
Qed.

Lemma handleFiles_frame (files : option (list File)) s :
  patientInfo (handleFiles files s) = patientInfo s
  ∧ selectedTreatments (handleFiles files s) = selectedTreatments s
  ∧ prescription (handleFiles files s) = prescription s.
Proof.
  destruct files as [batch|]; [|done]. unfold handleFiles. simpl.
  by case_decide.
Qed.

Lemma well_formed_form_handle s e :
  well_formed_form s → offered s e → well_formed_form (handle e s).
Proof.
  intros Hwf Hoffered.
  destruct e as [target_name target_value|value|value|treatment|tab
                |batch|batch| | |fileName|readAsDataURL generateContent| | |
                |outcome];
    simpl in Hoffered |- *.
  - (* InputChange *)
    destruct Hoffered as [Hshown Hfield].
    destruct Hwf as (Hsel & Hrel & Hlang & _).
    assert (form_shown (handleInputChange target_name target_value s) = false
            → isLoading (handleInputChange target_name target_value s) = false)
      as Hres.
    { assert (prescription (handleInputChange target_name target_value s)
              = prescription s) as Hsame.
      { unfold handleInputChange. case_decide; [|done].
        destruct (ReligiousTreatments !! _) as [label|]; [|done].
        by destruct (truthy label). }
      unfold form_shown in *. rewrite Hsame. congruence. }
    split_and!; [| | |exact Hres]; clear Hres;
      destruct Hfield as [Htext|[[-> Hvalue]|[-> Hvalue]]].
    + destruct (assign_field_text target_name target_value (patientInfo s) Htext)
        as (Hr & _ & Hne).
      unfold handleInputChange. rewrite decide_False by done. simpl.
      intros t Ht.
      rewrite (offered_treatments_religion _ s) by (simpl; by rewrite Hr).
      by apply Hsel.
    + unfold handleInputChange. rewrite decide_True by done.
      destruct (ReligiousTreatments !! religion (patientInfo s))
        as [label|] eqn:Hlabel.
      * rewrite (ReligiousTreatments_truthy _ _ Hlabel). simpl.
        intros t [Hne Ht]%list_elem_of_filter. apply Hsel in Ht.
        unfold offered_treatments in Ht |- *.
        apply elem_of_app in Ht as [Hgen|Hold]; [apply elem_of_app; by left|].
        unfold religiousTreatment in Hold. rewrite Hlabel in Hold.
        rewrite (ReligiousTreatments_truthy _ _ Hlabel) in Hold.
        by apply list_elem_of_singleton in Hold.
      * simpl. intros t Ht. apply Hsel in Ht.
        unfold offered_treatments in Ht |- *.
        apply elem_of_app in Ht as [Hgen|Hold]; [apply elem_of_app; by left|].
        unfold religiousTreatment in Hold. rewrite Hlabel in Hold.
        by apply elem_of_nil in Hold.
    + unfold handleInputChange.
      rewrite decide_False
        by (intros Heq; vm_compute in Heq; discriminate).
      rewrite assign_field_language. simpl. intros t Ht.
      rewrite (offered_treatments_religion _ s) by done. by apply Hsel.
    + destruct (assign_field_text target_name target_value (patientInfo s) Htext)
        as (Hr & _ & Hne).
      unfold handleInputChange. rewrite decide_False by done. simpl.
      by rewrite Hr.
    + assert (religion
                (patientInfo (handleInputChange (js "religion") target_value s))
              = target_value) as ->; [|by right].
      unfold handleInputChange. rewrite decide_True by done.
      destruct (ReligiousTreatments !! _) as [label|];
        [destruct (truthy label)|]; by rewrite assign_field_religion.
    + unfold handleInputChange.
      rewrite decide_False
        by (intros Heq; vm_compute in Heq; discriminate).
      by rewrite assign_field_language.
    + destruct (assign_field_text target_name target_value (patientInfo s) Htext)
        as (_ & Hl & Hne).
      unfold handleInputChange. rewrite decide_False by done. simpl.
      by rewrite Hl.
    + assert (language
                (patientInfo (handleInputChange (js "religion") target_value s))
              = language (patientInfo s)) as ->; [|done].
      unfold handleInputChange. rewrite decide_True by done.
      destruct (ReligiousTreatments !! _) as [label|];
        [destruct (truthy label)|]; by rewrite assign_field_religion.
    + unfold handleInputChange.
      rewrite decide_False
        by (intros Heq; vm_compute in Heq; discriminate).
      by rewrite assign_field_language.
  - by apply (well_formed_form_frame s); try apply Hoffered.
  - by apply (well_formed_form_frame s); try apply Hoffered.
  - (* TreatmentToggle *)
    destruct Hoffered as [Hshown Htreatment].
    destruct Hwf as (Hsel & Hrel & Hlang & _).
    unfold well_formed_form, form_shown in *. simpl.
    split_and!; [|done|done|congruence].
    rewrite (offered_treatments_religion _ s) by done.
    intros t. destruct (JsSet.has treatment (selectedTreatments s)) eqn:Hhas.
    + unfold JsSet.delete. intros [_ Ht]%list_elem_of_filter. by apply Hsel.
    + unfold JsSet.add. rewrite Hhas.
      intros [Ht| ->%list_elem_of_singleton]%elem_of_app; [by apply Hsel|done].
  - by apply (well_formed_form_frame s).
  - destruct (handleFiles_frame batch s) as (Hp & Hs & Hr).
    by apply (well_formed_form_frame s); try apply Hoffered.
  - destruct (handleFiles_frame batch (setIsDragging false s)) as (Hp & Hs & Hr).
    by apply (well_formed_form_frame s); try apply Hoffered.
  - by apply (well_formed_form_frame s); try apply Hoffered.
  - by apply (well_formed_form_frame s); try apply Hoffered.
  - by apply (well_formed_form_frame s); try apply Hoffered.
  - (* Submit *)
    destruct Hoffered as [Hshown Hload].
    destruct Hwf as (Hsel & Hrel & Hlang & _).
    pose proof (handleSubmit_keeps_form_data readAsDataURL generateContent s)
      as Hform.
    unfold form_data in Hform. injection Hform as Hp _ _ Hs _ _.
    unfold well_formed_form. rewrite Hp, Hs.
    rewrite (offered_treatments_religion _ s) by (by rewrite Hp).
    split_and!; try done.
    unfold handleSubmit, form_shown in *.
    destruct (validation_fails s); [simpl; congruence|].
    by destruct (submit_body _ _ s) as [log [v|err]].
  - (* Edit *)
    destruct Hwf as (Hsel & Hrel & Hlang & _).
    unfold well_formed_form, form_shown. simpl. split_and!; try done.
  - (* Reset *)
    unfold well_formed_form, form_shown. simpl.
    split_and!; [by intros t ?%elem_of_nil|by left|by left|done].
  - (* SubmitBegin *)
    destruct Hoffered as [Hshown Hload].
    destruct Hwf as (Hsel & Hrel & Hlang & _).
    unfold well_formed_form, handleSubmit_begin, form_shown in *.
    destruct (validation_fails s); simpl; split_and!; try done; congruence.
  - (* SubmitSettle *)
    destruct Hwf as (Hsel & Hrel & Hlang & _).
    unfold well_formed_form. by destruct outcome.
Qed.

(** The invariant of the rendered component. *)
Lemma ui_invariant s : ui_reachable s → well_formed_form s.
Proof.
  induction 1 as [|s e _ IH Hoffered].
  - unfold well_formed_form, form_shown. simpl.
    split_and!; [by intros t ?%elem_of_nil|by left|by left|done].
  - by apply well_formed_form_handle.
Qed.

(** X20.  In every state the component reaches, whatever events arrive,
    also between the start of a submission and its end, and however reader
    and service behave: every accepted file has an allowed media type and
    a size below 10 MiB, no treatment is selected twice, and while a
    submission is in flight no prescription is set, so that the form, not
    the prescription view, is what lies under the loading screen. *)
Theorem accepted_files_always_pass_the_check s :
  reachable s →
  (∀ file, file ∈ uploadedFiles s →
           allowed_media_type file ∧ file_size file < 10485760)
  ∧ NoDup (selectedTreatments s)
  ∧ (isLoading s = true → prescription s = JNull ∧ form_shown s = true).
Proof.
  intros (Hfiles & Hsel & Hload)%reachable_invariant.
  split_and!; [|done|].
  - intros file Hin. rewrite Forall_forall in Hfiles.
    by apply valid_file_iff, Hfiles.
  - intros Hflight. unfold form_shown. by rewrite (Hload Hflight).
Qed.

(** X21.  In every state the rendered component reaches, each selected
    treatment is one of the three general ones or the label that the
    religion table gives for the patient's current religion, so at most
    four are selected; the language is one of the supported languages and
    the religion is empty or an option of the select. *)
Theorem selection_is_always_offered s :
  ui_reachable s →
  (∀ treatment, treatment ∈ selectedTreatments s →
     (∃ t : TreatmentType, treatment = TreatmentType_value t)
     ∨ ReligiousTreatments !! religion (patientInfo s) = Some treatment)
  ∧ (length (selectedTreatments s) ≤ 4)%nat
  ∧ language (patientInfo s) ∈ supportedLanguages
  ∧ (religion (patientInfo s) = []
     ∨ religion (patientInfo s) ∈ religion_options).
Proof.
  intros Hui. destruct (ui_invariant s Hui) as (Hsel & Hrel & Hlang & _).
  apply ui_reachable_reachable, reachable_invariant in Hui as (_ & Hnodup & _).
  split_and!; [| |done|done].
  - intros treatment Hin. apply Hsel in Hin. unfold offered_treatments in Hin.
    apply elem_of_app in Hin as [Hgen|Hlabel].
    + left. repeat (apply elem_of_cons in Hgen as [->|Hgen]; [by eexists|]).
      by apply elem_of_nil in Hgen.
    + right. unfold religiousTreatment in Hlabel.
      destruct (ReligiousTreatments !! _) as [label|];
        [|by apply elem_of_nil in Hlabel].
      destruct (truthy label); [|by apply elem_of_nil in Hlabel].
      by apply list_elem_of_singleton in Hlabel as ->.
  - transitivity (length (offered_treatments s)).
    + apply submseteq_length, NoDup_submseteq; [done|]. exact Hsel.
    + unfold offered_treatments. rewrite length_app. simpl.
      destruct (religiousTreatment s) as [label|]; [|simpl; lia].
      destruct (truthy label); simpl; lia.
Qed.

Lemma omap_at_most_one {A B} `{EqDecision A} (f : A → option B)
    (only : A) (l : list A) :
  NoDup l → (∀ x, x ∈ l → is_Some (f x) → x = only) →
  (length (omap f l) ≤ 1)%nat.
Proof.
  intros Hnodup Honly.
  assert (∀ k : list A, (∀ x, x ∈ k → f x = None) → omap f k = []) as Hnone.
  { induction k as [|x k IH]; [done|]. intros Hk. simpl.
    rewrite (Hk x) by (by left). apply IH. intros y Hy. apply Hk. by right. }
  induction Hnodup as [|x l Hx Hl IH]; [simpl; lia|]. simpl.
  destruct (f x) as [y|] eqn:Hfx.
  - rewrite Hnone; [simpl; lia|]. intros z Hz.
    destruct (f z) as [w|] eqn:Hfz; [|done].
    assert (z = only) as -> by (apply Honly; [by right|by rewrite Hfz]).
    assert (x = only) as -> by (apply Honly; [by left|by rewrite Hfx]).
    done.
  - apply IH. intros z Hz. apply Honly. by right.
Qed.

(** X22.  A prompt built from a state the rendered component reaches has
    at most one religious rule, and that rule is the fragment for the label
    of the patient's current religion. *)
Theorem at_most_one_religious_rule s :
  ui_reachable s →
  (length (geminiService.religiousRules (selectedTreatments s)) ≤ 1)%nat
  ∧ (∀ fragment,
       fragment ∈ geminiService.religiousRules (selectedTreatments s) →
       ∃ label,
         ReligiousTreatments !! religion (patientInfo s) = Some label
         ∧ label ∈ selectedTreatments s
         ∧ geminiService.religiousTreatmentPrompts !! label = Some fragment).
Proof.
  intros Hui. destruct (ui_invariant s Hui) as (Hsel & _).
  apply ui_reachable_reachable, reachable_invariant in Hui as (_ & Hnodup & _).
  rewrite religiousRules_omap.
  assert (∀ treatment,
            treatment ∈ selectedTreatments s →
            is_Some (geminiService.religiousTreatmentPrompts !! treatment) →
            ReligiousTreatments !! religion (patientInfo s) = Some treatment)
    as Hlabel.
  { intros treatment Hin Hsome. apply Hsel in Hin.
    unfold offered_treatments in Hin.
    apply elem_of_app in Hin as [Hgen|Hrel].
    - exfalso. revert Hsome.
      repeat (apply elem_of_cons in Hgen as [->|Hgen];
              [intros [fragment Hf]; vm_compute in Hf; discriminate|]).
      by apply elem_of_nil in Hgen.
    - unfold religiousTreatment in Hrel.
      destruct (ReligiousTreatments !! _) as [label|];
        [|by apply elem_of_nil in Hrel].
      destruct (truthy label); [|by apply elem_of_nil in Hrel].
      by apply list_elem_of_singleton in Hrel as ->. }
  split.
  - apply (omap_at_most_one _
             (default [] (ReligiousTreatments !! religion (patientInfo s))));
      [done|].
    intros treatment Hin Hsome. by rewrite (Hlabel treatment Hin Hsome).
  - intros fragment (label & Hin & Hfragment)%list_elem_of_omap.
    exists label. split_and!; [|done|done].
    apply Hlabel; [done|]. by rewrite Hfragment.
Qed.

(** X23.  A submission made from the form that ends in the prescription
    view, with no other event between its start and its end: the form
    passed the check and every accepted file was read, no error is left,
    and the edit action then shows the form again, in the editing state,
    with everything the user had entered when the form was submitted. *)
Theorem result_is_shown_over_a_complete_form
    (readAsDataURL : File → option jsstring)
    (generateContent : Request → ServiceOutcome) s :
  form_shown s = true →
  phase (handleSubmit readAsDataURL generateContent s).2 = Result →
  validation_fails s = false
  ∧ Forall (readable readAsDataURL) (uploadedFiles s)
  ∧ error (handleSubmit readAsDataURL generateContent s).2 = err_null
  ∧ phase (handleEdit (handleSubmit readAsDataURL generateContent s).2)
    = Editing
  ∧ form_data (handleEdit (handleSubmit readAsDataURL generateContent s).2)
    = form_data s.
Proof.
  intros Hshown Hphase. unfold form_shown in Hshown.
  apply negb_true_iff in Hshown.
  destruct (validation_fails s) eqn:Hvalid.
  { unfold handleSubmit, phase in Hphase. rewrite Hvalid in Hphase.
    simpl in Hphase. rewrite Hshown in Hphase.
    destruct (isLoading s); [done|]. by destruct (truthy validation_message). }
  assert (Forall (readable readAsDataURL) (uploadedFiles s)) as Hread.
  { apply Forall_forall. intros file Hin.
    destruct (readAsDataURL file) as [result|] eqn:Hfile; [by exists result|].
    assert (Exists (λ file, readAsDataURL file = None) (uploadedFiles s))
      as Hbad by (apply Exists_exists; by exists file).
    by rewrite (handleSubmit_unreadable _ _ s Hvalid Hbad) in Hphase. }
  split; [done|]. split; [done|].
  pose proof (handleSubmit_keeps_form_data readAsDataURL generateContent s)
    as Hform.
  unfold handleSubmit in *. rewrite Hvalid in *.
  destruct (submit_body _ _ s) as [log [v|err]].
  - split_and!; [done|done|exact Hform].
  - unfold phase in Hphase. simpl in Hphase.
    by destruct (shown_error (error_of_message (message_of err))).
Qed.

(** X24.  A change of any field but the religion leaves the selection
    and the offered treatments as they are, and touches nothing outside
    the patient record. *)
Theorem only_religion_touches_the_selection (target_name target_value : jsstring) s :
  target_name ≠ js "religion" →
  selectedTreatments (handleInputChange target_name target_value s)
  = selectedTreatments s
  ∧ religion (patientInfo (handleInputChange target_name target_value s))
    = religion (patientInfo s)
  ∧ offered_treatments (handleInputChange target_name target_value s)
    = offered_treatments s
  ∧ handleInputChange target_name target_value s
    = setPatientInfo
        (patientInfo (handleInputChange target_name target_value s)) s.
Proof.
  intros Hne. unfold handleInputChange. rewrite decide_False by done. simpl.
  assert (religion (assign_field target_name target_value (patientInfo s))
          = religion (patientInfo s)) as Hrel.
  { unfold assign_field. repeat case_decide; done. }
  split_and!; [done|done| |done].
  by apply offered_treatments_religion.
Qed.

End MoreReachability.

(** ** The further properties, applied *)

Section MoreScenarios.

Import Scenario.

Ltac offered_here :=
  first
    [ exact I
    | by_evaluation
    | vm_compute; reflexivity
    | left; by_evaluation
    | right; left; split; [vm_compute; reflexivity|by_evaluation]
    | right; right; split; [vm_compute; reflexivity|by_evaluation] ].

(** The forms of the examples are reached through events the rendered
    component offers. *)
Lemma scenario_forms_ui_reachable :
  ui_reachable text_form
  ∧ ui_reachable upload_form
  ∧ ui_reachable form_with_result.
Proof.
  assert (ui_reachable text_form) as Htext.
  { replace text_form with (run fill_in_text_form initial_state)
      by (vm_compute; reflexivity).
    apply ui_reachable_run; [constructor|].
    unfold fill_in_text_form. cbn [offered_run offered].
    repeat split; offered_here. }
  assert (ui_reachable upload_form) as Hupload.
  { replace upload_form with (run go_to_upload text_form)
      by (vm_compute; reflexivity).
    apply ui_reachable_run; [done|].
    unfold go_to_upload. cbn [offered_run offered].
    repeat split; offered_here. }
  split_and!; [done|done|].
  replace form_with_result
    with (run [Submit reads_fine (replies full_reply)] upload_form)
    by (vm_compute; reflexivity).
  apply ui_reachable_run; [done|].
  cbn [offered_run offered]. repeat split; offered_here.
Qed.

Lemma accept_then_remove_restores_witness :
  valid_file report
  ∧ (∀ other, other ∈ uploadedFiles upload_form →
              file_name other ≠ file_name report)
  ∧ uploadedFiles
      (removeFile (file_name report) (handleFiles (Some [report]) upload_form))
    = uploadedFiles upload_form.
Proof.
  assert (valid_file report) as Hvalid by by_evaluation.
  assert (∀ other, other ∈ uploadedFiles upload_form →
                   file_name other ≠ file_name report) as Hfresh.
  { intros other Hin. apply list_elem_of_singleton in Hin as ->.
    intros Heq. vm_compute in Heq. discriminate. }
  split; [exact Hvalid|]. split; [exact Hfresh|].
  exact (accept_then_remove_restores report upload_form Hvalid Hfresh).
Defined.

Lemma fileToPart_takes_the_payload_witness :
  reads_fine scan = Some (js "data:image/png;base64" ++ 44 :: js "iVBORw0KGgo=")
  ∧ fileToPart reads_fine scan
    = ([ReadAsDataURL scan],
       Returns {| mimeType := js "image/png";
                  data := Some (js "iVBORw0KGgo=") |}).
Proof.
  assert (reads_fine scan
          = Some (js "data:image/png;base64" ++ 44 :: js "iVBORw0KGgo="))
    as Hurl by (vm_compute; reflexivity).
  split; [exact Hurl|].
  exact (fileToPart_takes_the_payload reads_fine scan
           (js "data:image/png;base64") (js "iVBORw0KGgo=") Hurl
           ltac:(by_evaluation) ltac:(by_evaluation)).
Defined.

Lemma fileToPart_without_comma_witness :
  reads_no_comma scan = Some (js "data:")
  ∧ fileToPart reads_no_comma scan
    = ([ReadAsDataURL scan],
       Returns {| mimeType := js "image/png"; data := None |}).
Proof.
  split; [reflexivity|].
  exact (fileToPart_without_comma reads_no_comma scan (js "data:") eq_refl
           ltac:(by_evaluation)).
Defined.

Lemma unreadable_file_stops_the_submission_witness :
  validation_fails upload_form = false
  ∧ Exists (λ file, reads_fail file = None) (uploadedFiles upload_form)
  ∧ (handleSubmit reads_fail (replies full_reply) upload_form).1
    = ReadAsDataURL <$> uploadedFiles upload_form
  ∧ prescription (handleSubmit reads_fail (replies full_reply) upload_form).2
    = JNull
  ∧ isLoading (handleSubmit reads_fail (replies full_reply) upload_form).2
    = false.
Proof.
  assert (validation_fails upload_form = false) as Hvalid
      by (vm_compute; reflexivity).
  assert (Exists (λ file, reads_fail file = None) (uploadedFiles upload_form))
    as Hbad by (by left).
  split; [exact Hvalid|]. split; [exact Hbad|].
  exact (unreadable_file_stops_the_submission reads_fail (replies full_reply)
           upload_form Hvalid Hbad).
Defined.

Lemma service_failure_shows_the_generic_message_witness :
  validation_fails upload_form = false
  ∧ Forall (readable reads_fine) (uploadedFiles upload_form)
  ∧ shown_error (error (handleSubmit reads_fine fails upload_form).2)
    = Some (js "Failed to get a response from the AI. Please try again.")
  ∧ phase (handleSubmit reads_fine fails upload_form).2 = Error
  ∧ prescription (handleSubmit reads_fine fails upload_form).2 = JNull
  ∧ form_data (handleSubmit reads_fine fails upload_form).2
    = form_data upload_form.
Proof.
  assert (validation_fails upload_form = false) as Hvalid
      by (vm_compute; reflexivity).
  assert (Forall (readable reads_fine) (uploadedFiles upload_form)) as Hread
      by (repeat constructor; by eexists).
  split; [exact Hvalid|]. split; [exact Hread|].
  exact (service_failure_shows_the_generic_message reads_fine fails
           upload_form Hvalid Hread (λ req, ex_intro _ _ eq_refl)).
Defined.

Lemma accepted_files_always_pass_the_check_witness :
  reachable (handle SubmitBegin upload_form)
  ∧ isLoading (handle SubmitBegin upload_form) = true
  ∧ (∀ file, file ∈ uploadedFiles (handle SubmitBegin upload_form) →
             allowed_media_type file ∧ file_size file < 10485760)
  ∧ NoDup (selectedTreatments (handle SubmitBegin upload_form))
  ∧ (isLoading (handle SubmitBegin upload_form) = true →
     prescription (handle SubmitBegin upload_form) = JNull
     ∧ form_shown (handle SubmitBegin upload_form) = true).
Proof.
  assert (reachable (handle SubmitBegin upload_form)) as Hreach
      by (constructor; apply scenario_forms_reachable).
  split; [exact Hreach|]. split; [reflexivity|].
  exact (accepted_files_always_pass_the_check
           (handle SubmitBegin upload_form) Hreach).
Defined.

Lemma selection_is_always_offered_witness :
  ui_reachable upload_form
  ∧ (length (selectedTreatments upload_form) ≤ 4)%nat
  ∧ language (patientInfo upload_form) ∈ supportedLanguages.
Proof.
  assert (ui_reachable upload_form) as Hui
      by apply scenario_forms_ui_reachable.
  split; [exact Hui|].
  destruct (selection_is_always_offered upload_form Hui)
    as (_ & Hlen & Hlang & _).
  split; [exact Hlen|exact Hlang].
Defined.

Lemma at_most_one_religious_rule_witness :
  ui_reachable upload_form
  ∧ (length (geminiService.religiousRules (selectedTreatments upload_form))
     ≤ 1)%nat.
Proof.
  assert (ui_reachable upload_form) as Hui
      by apply scenario_forms_ui_reachable.
  split; [exact Hui|].
  exact (proj1 (at_most_one_religious_rule upload_form Hui)).
Defined.

Lemma result_is_shown_over_a_complete_form_witness :
  form_shown upload_form = true
  ∧ phase (handleSubmit reads_fine (replies full_reply) upload_form).2 = Result
  ∧ validation_fails upload_form = false
  ∧ Forall (readable reads_fine) (uploadedFiles upload_form)
  ∧ error (handleSubmit reads_fine (replies full_reply) upload_form).2
    = err_null
  ∧ phase (handleEdit
             (handleSubmit reads_fine (replies full_reply) upload_form).2)
    = Editing
  ∧ form_data
      (handleEdit (handleSubmit reads_fine (replies full_reply) upload_form).2)
    = form_data upload_form.
Proof.
  assert (form_shown upload_form = true) as Hshown by reflexivity.
  assert (phase (handleSubmit reads_fine (replies full_reply) upload_form).2
          = Result) as Hphase by (vm_compute; reflexivity).
  split; [exact Hshown|]. split; [exact Hphase|].
  exact (result_is_shown_over_a_complete_form reads_fine (replies full_reply)
           upload_form Hshown Hphase).
Defined.

Lemma religiousRules_are_the_selected_fragments_witness :
  (∀ treatment, treatment ∈ aisha_treatments →
     (∃ t : TreatmentType, treatment = TreatmentType_value t)
     ∨ ∃ r, ReligiousTreatments !! r = Some treatment)
  ∧ geminiService.religiousRules aisha_treatments
    = omap (λ treatment, geminiService.religiousTreatmentPrompts !! treatment)
        aisha_treatments.
Proof.
  assert (∀ treatment, treatment ∈ aisha_treatments →
            (∃ t : TreatmentType, treatment = TreatmentType_value t)
            ∨ ∃ r, ReligiousTreatments !! r = Some treatment) as Hoffered.
  { intros treatment Hin. apply elem_of_cons in Hin as [->|Hin].
    - left. exists SpecialistDoctors. vm_compute. reflexivity.
    - apply list_elem_of_singleton in Hin as ->.
      right. exists (js "Islam"). vm_compute. reflexivity. }
  split; [exact Hoffered|].
  exact (proj1 (religiousRules_are_the_selected_fragments aisha_treatments
                  Hoffered)).
Defined.

Lemma only_religion_touches_the_selection_witness :
  js "language" ≠ js "religion"
  ∧ selectedTreatments (handleInputChange (js "language") (js "Hindi") text_form)
    = selectedTreatments text_form
  ∧ offered_treatments (handleInputChange (js "language") (js "Hindi") text_form)
    = offered_treatments text_form.
Proof.
  assert (js "language" ≠ js "religion") as Hne
      by (intros Heq; vm_compute in Heq; discriminate).
  split; [exact Hne|].
  destruct (only_religion_touches_the_selection (js "language") (js "Hindi")
              text_form Hne) as (Hsel & _ & Hoff & _).
  split; [exact Hsel|exact Hoff].
Defined.

End MoreScenarios.
